(** * The benchmark command of moleculer-repl (src/index.js, [bench <action>])

    A shallow embedding of the [bench] action: the options that bound a run,
    the closure variables that hold the running statistics, the completion
    handler [handleResponse], the request issuer [doRequest] and the final
    [printResult], driven by the callbacks that the Node event loop runs
    (a settled [broker.call] promise, a [setImmediate] callback, the
    [setTimeout] callback).

    JavaScript numbers are IEEE 754 binary64 values; they are modelled by the
    standard library's executable specification [spec_float] at precision 53,
    so that rounding, [NaN] and division by zero are those of the source.
    The three counters only ever see [++], [%] and comparisons and stay
    integers (exactly representable below 2^53); they are kept in [N]. *)

From Stdlib Require Import ZArith NArith List Bool Lia String.
From Stdlib Require Import Floats.SpecFloat.
Import ListNotations.

Open Scope Z_scope.

(** ** JavaScript numbers *)

Definition prec : Z := 53.
Definition emax : Z := 1024.

Definition number : Type := spec_float.

(** An integer literal or an integer-valued counter read as a number. *)
Definition of_Z (z : Z) : number := binary_normalize prec emax z 0 false.
Definition of_N (n : N) : number := of_Z (Z.of_N n).

Definition js_add : number -> number -> number := SFadd prec emax.
Definition js_mul : number -> number -> number := SFmul prec emax.
Definition js_div : number -> number -> number := SFdiv prec emax.

(** [x < y]; false as soon as one side is [NaN]. *)
Definition js_lt (x y : number) : bool := SFltb x y.
(** [x > y] is evaluated as [y < x]. *)
Definition js_gt (x y : number) : bool := SFltb y x.
(** [x <= y]; false as soon as one side is [NaN]. *)
Definition js_le (x y : number) : bool := SFleb x y.

Definition is_nan (x : number) : bool :=
  match x with S754_nan => true | _ => false end.

(** ToBoolean on a number: [0], [-0] and [NaN] are falsy. *)
Definition truthy (x : number) : bool :=
  match x with
  | S754_zero _ | S754_nan => false
  | _ => true
  end.

(** ToBoolean on an integer-valued number. *)
Definition truthyZ (z : Z) : bool := negb (z =? 0).

(** ToBoolean on a value that may be [null]. *)
Definition truthy_opt {A : Type} (t : A -> bool) (o : option A) : bool :=
  match o with
  | Some x => t x
  | None => false
  end.

Declare Scope js_scope.
Delimit Scope js_scope with js.
Notation "x + y" := (js_add x y) : js_scope.
Notation "x * y" := (js_mul x y) : js_scope.
Notation "x / y" := (js_div x y) : js_scope.
Notation "x <? y" := (js_lt x y) : js_scope.
Notation "x >? y" := (js_gt x y) : js_scope.

(** ** process.hrtime *)

(** [process.hrtime(start)] returns the time elapsed since [start] as the
    pair [[seconds, nanoseconds]]. *)
Record hrtime : Type := HR { hr_sec : N; hr_nsec : N }.

(** [(diff[0] + diff[1] / 1e9) * 1000], the elapsed time in milliseconds. *)
Definition duration_ms (diff : hrtime) : number :=
  ((of_N (hr_sec diff) + of_N (hr_nsec diff) / of_N 1000000000) * of_N 1000)%js.

(** ** The command's arguments *)

(** [args] of the action. [num] and [time] are the values of [--num] and
    [--time] after [Number(...)]; [None] is an option that was not given
    ([args.options.x == null]). [--num] counts requests and is an integer:
    a non-numeric text would give [NaN], which every guard below treats as
    it treats [0], and a fractional bound is reached when the next integer
    is. [--time] is in seconds and may be any number. *)
Record bench_args : Type := {
  action : string;
  jsonParams : option string;
  num : option Z;
  time : option number;
  nodeID : option string
}.

(** [const iterate = args.options.num != null ? Number(args.options.num) : null] *)
Definition iterate (args : bench_args) : option Z := num args.

(** [let time = ...; if (!iterate && !time) time = 5;] *)
Definition bench_time (args : bench_args) : option number :=
  if negb (truthy_opt truthyZ (iterate args)) && negb (truthy_opt truthy (time args))
  then Some (of_Z 5)
  else time args.

(** The delay given to [setTimeout]: [(time ? time : 60) * 1000]. *)
Definition timer_delay (args : bench_args) : number :=
  (match bench_time args with
   | Some t => if truthy t then t else of_Z 60
   | None => of_Z 60
   end * of_N 1000)%js.

(** ** The report *)

(** What [printResult] hands to its formatters ([formatNumber], [humanize]):
    the request count, the total duration, the error part (absent when it
    prints "0 error", else the error count and [errorCount / resCount * 100]),
    [resCount / duration * 1000], [sumTime / resCount], [minTime] and
    [maxTime] (still [undefined] when nothing was recorded). *)
Record report : Type := {
  r_requests : N;
  r_duration : number;
  r_errors : option (N * number);
  r_reqPerSec : number;
  r_avg : number;
  r_min : option number;
  r_max : option number
}.

(** ** The state of a run *)

(** Where control is: before the first [doRequest], a [broker.call] promise
    pending, a [setImmediate] callback pending, or [done()] called after the
    report was printed. *)
Inductive phase : Type :=
| Idle
| InFlight
| Deferred
| Finished (r : report).

(** The closure variables of the action, the pending timer (its delay, until
    its callback has run) and the control point. *)
Record bench : Type := {
  count : N;
  resCount : N;
  errorCount : N;
  sumTime : number;
  minTime : option number;
  maxTime : option number;
  timeout : bool;
  timer : option number;
  control : phase
}.

(** The rejection value of [broker.call]: the broker rejects with an [Error]
    object, which is truthy. *)
Record error : Type := { message : string }.

Definition set_control (b : bench) (p : phase) : bench :=
  {| count := count b; resCount := resCount b; errorCount := errorCount b;
     sumTime := sumTime b; minTime := minTime b; maxTime := maxTime b;
     timeout := timeout b; timer := timer b; control := p |}.

(** The declarations of the action up to [setTimeout(...)]. *)
Definition init (args : bench_args) : bench :=
  {| count := 0; resCount := 0; errorCount := 0;
     sumTime := of_Z 0; minTime := None; maxTime := None;
     timeout := false; timer := Some (timer_delay args); control := Idle |}.

(** [printResult(duration)] *)
Definition printResult (b : bench) (duration : number) : report :=
  {| r_requests := resCount b;
     r_duration := duration;
     r_errors :=
       if (0 <? errorCount b)%N
       then Some (errorCount b, (of_N (errorCount b) / of_N (resCount b) * of_N 100)%js)
       else None;
     r_reqPerSec := (of_N (resCount b) / duration * of_N 1000)%js;
     r_avg := (sumTime b / of_N (resCount b))%js;
     r_min := minTime b;
     r_max := maxTime b |}.

(** The first half of [handleResponse(startTime, err)]: the update of the
    statistics. [diff] is what [process.hrtime(startTime)] returns. *)
Definition record_outcome (b : bench) (err : option error) (diff : hrtime) : bench :=
  let duration := duration_ms diff in
  {| count := count b;
     resCount := resCount b + 1;
     errorCount := match err with
                   | Some _ => errorCount b + 1
                   | None => errorCount b
                   end;
     sumTime := (sumTime b + duration)%js;
     minTime := match minTime b with
                | None => Some duration
                | Some m => if (duration <? m)%js then Some duration else Some m
                end;
     maxTime := match maxTime b with
                | None => Some duration
                | Some m => if (duration >? m)%js then Some duration else Some m
                end;
     timeout := timeout b; timer := timer b; control := control b |}.

(** [timeout || (iterate && resCount >= iterate)] *)
Definition should_stop (args : bench_args) (b : bench) : bool :=
  timeout b ||
  match iterate args with
  | Some n => truthyZ n && (n <=? Z.of_N (resCount b))
  | None => false
  end.

(** [count % 10 * 1000]: [%] and [*] have the same precedence and associate
    to the left. *)
Definition cycle_expr (count : N) : N := ((count mod 10) * 1000)%N.

(** The branch taken by [if (count % 10 * 1000)]: true is the fast cycle
    (a direct [doRequest()]), false the slow one ([setImmediate]). *)
Definition fast_cycle (count : N) : bool := negb (cycle_expr count =? 0)%N.

(** [doRequest()]: count the request and call the broker. *)
Definition doRequest (b : bench) : bench :=
  {| count := count b + 1; resCount := resCount b; errorCount := errorCount b;
     sumTime := sumTime b; minTime := minTime b; maxTime := maxTime b;
     timeout := timeout b; timer := timer b; control := InFlight |}.

(** [handleResponse(startTime, err)]. [total] is what
    [process.hrtime(startTotalTime)] returns when the run stops. *)
Definition handleResponse (args : bench_args) (b : bench)
    (err : option error) (diff total : hrtime) : bench :=
  let b1 := record_outcome b err diff in
  if should_stop args b1 then
    set_control b1 (Finished (printResult b1 (duration_ms total)))
  else if fast_cycle (count b1) then doRequest b1
  else set_control b1 Deferred.

(** The callback of [setTimeout]: [timeout = true]. *)
Definition fire_timer (b : bench) : bench :=
  {| count := count b; resCount := resCount b; errorCount := errorCount b;
     sumTime := sumTime b; minTime := minTime b; maxTime := maxTime b;
     timeout := true; timer := None; control := control b |}.

(** The action itself: the declarations, then the first [doRequest()]. *)
Definition bench_action (args : bench_args) : bench := doRequest (init args).

(** ** The event loop *)

(** The callbacks the event loop can run for a benchmark: the pending call
    settles ([.then] with no error, [.catch] with the rejection), with the
    clock readings its handler takes; the [setImmediate] callback; the
    [setTimeout] callback. Each callback runs to its end without throwing,
    and the event loop may run the timer callback between any two others. *)
Inductive event : Type :=
| Settled (err : option error) (diff total : hrtime)
| Immediate
| TimerFired.

(** One callback. [None]: the event loop has no such callback to run. *)
Definition step (args : bench_args) (b : bench) (ev : event) : option bench :=
  match ev with
  | Settled err diff total =>
      match control b with
      | InFlight => Some (handleResponse args b err diff total)
      | _ => None
      end
  | Immediate =>
      match control b with
      | Deferred => Some (doRequest b)
      | _ => None
      end
  | TimerFired =>
      match timer b with
      | Some _ => Some (fire_timer b)
      | None => None
      end
  end.

Fixpoint run_from (args : bench_args) (b : bench) (tr : list event) : option bench :=
  match tr with
  | [] => Some b
  | ev :: tr' =>
      match step args b ev with
      | Some b' => run_from args b' tr'
      | None => None
      end
  end.

(** A run: the action, then the callbacks of [tr] in order. *)
Definition run (args : bench_args) (tr : list event) : option bench :=
  run_from args (bench_action args) tr.

Definition finished (b : bench) : bool :=
  match control b with
  | Finished _ => true
  | _ => false
  end.

Definition report_of (b : bench) : option report :=
  match control b with
  | Finished r => Some r
  | _ => None
  end.

(** ** Observations on runs *)

(** The report a run ends with, if it has ended. *)
Definition final_report (args : bench_args) (tr : list event) : option report :=
  match run args tr with
  | Some b => report_of b
  | None => None
  end.

(** The report's request count, error count (if it shows one), minimum,
    maximum and average. *)
Definition summary (r : report) : N * option N * option number * option number * number :=
  (r_requests r, option_map fst (r_errors r), r_min r, r_max r, r_avg r).

(** The outcomes a trace delivers, in order: the rejection, if any, and the
    reading of [process.hrtime(startTime)]. *)
Definition completions (tr : list event) : list (option error * hrtime) :=
  flat_map (fun ev => match ev with
                      | Settled err diff _ => [(err, diff)]
                      | _ => []
                      end) tr.

(** Their latencies in milliseconds. *)
Definition latencies (tr : list event) : list number :=
  map (fun c => duration_ms (snd c)) (completions tr).

(** The five statistics variables. *)
Definition stats (b : bench) : N * N * number * option number * option number :=
  (resCount b, errorCount b, sumTime b, minTime b, maxTime b).

(** The statistics after the outcomes [cs] are recorded in order. *)
Definition aggregate (b : bench) (cs : list (option error * hrtime)) : bench :=
  fold_left (fun b c => record_outcome b (fst c) (snd c)) cs b.

(** [sumTime / resCount], the average that [printResult] shows. *)
Definition avgTime (b : bench) : number := (sumTime b / of_N (resCount b))%js.

(** Whether the average lies between [minTime] and [maxTime]. *)
Definition avg_within_bounds (b : bench) : bool :=
  match minTime b, maxTime b with
  | Some mn, Some mx => js_le mn (avgTime b) && js_le (avgTime b) mx
  | _, _ => false
  end.

(** ** The specification's wording *)

(** The termination condition of the specification: the timer has fired, or
    a request bound is set and the completions have reached it. A bound is
    set when [--num] was given with a value that is not falsy. *)
Definition maxRequests_set (args : bench_args) (n : Z) : Prop :=
  iterate args = Some n /\ n <> 0.

Definition stop_condition (args : bench_args) (b : bench) : Prop :=
  timeout b = true \/
  exists n, maxRequests_set args n /\ n <= Z.of_N (resCount b).

(** [r] is the smaller of [x] and [y]. *)
Definition minimum_of (r x y : number) : Prop :=
  (r = x \/ r = y) /\ js_le r x = true /\ js_le r y = true.

(** [r] is the larger of [x] and [y]. *)
Definition maximum_of (r x y : number) : Prop :=
  (r = x \/ r = y) /\ js_le x r = true /\ js_le y r = true.

(** What holds of the statistics once the latencies [lats] were recorded. *)
Definition stats_ok (lats : list number) (b : bench) : Prop :=
  resCount b = N.of_nat (List.length lats) /\
  (errorCount b <= resCount b)%N /\
  Forall (fun l => is_nan l = false) lats /\
  sumTime b = fold_left js_add lats (of_Z 0) /\
  (lats = [] -> minTime b = None /\ maxTime b = None) /\
  (lats <> [] ->
   exists mn mx,
     minTime b = Some mn /\ maxTime b = Some mx /\
     In mn lats /\ In mx lats /\
     forall l, In l lats -> js_le mn l = true /\ js_le l mx = true).

(** A printed report shows the statistics of the state it was printed in. *)
Definition report_matches (b : bench) : Prop :=
  match control b with
  | Finished r => exists duration, r = printResult b duration
  | _ => True
  end.

(** ** The order of numbers *)

(** A key that orders the numbers other than [NaN] as [<] does: the class
    (negative infinity, negative, zero, positive, positive infinity), then
    the exponent and the mantissa, both negated below zero. *)
Definition key (x : number) : Z * Z * Z :=
  match x with
  | S754_nan => (0, 0, 0)
  | S754_zero _ => (0, 0, 0)
  | S754_infinity false => (2, 0, 0)
  | S754_infinity true => (-2, 0, 0)
  | S754_finite false m e => (1, e, Zpos m)
  | S754_finite true m e => (-1, - e, Zneg m)
  end.

Definition lt3 (p q : Z * Z * Z) : Prop :=
  let '(a, b, c) := p in
  let '(a', b', c') := q in
  a < a' \/ (a = a' /\ (b < b' \/ (b = b' /\ c < c'))).

Definition le3 (p q : Z * Z * Z) : Prop := lt3 p q \/ p = q.

(** Neither [NaN] nor below zero. *)
Definition nonneg (x : number) : bool :=
  match x with
  | S754_nan => false
  | S754_zero _ => true
  | S754_infinity s => negb s
  | S754_finite s _ _ => negb s
  end.

Ltac order_dir := intro; first [ reflexivity | discriminate | lia ].

Ltac le_dir :=
  split;
  [ intro; first [ discriminate | left; lia | right; reflexivity ]
  | intros [?|E]; first [ reflexivity | lia | inversion E; lia | discriminate ] ].

(** ** Sample runs *)

Definition ms (n : N) : hrtime := HR 0 (n * 1000000).

Definition failure : option error := Some {| message := "request failed" |}.

Definition args_num (n : Z) : bench_args :=
  {| action := "math.add"; jsonParams := None; num := Some n; time := None;
     nodeID := None |}.

Definition args_default : bench_args :=
  {| action := "math.add"; jsonParams := None; num := None; time := None;
     nodeID := None |}.

(** success(10ms), fail(20ms), success(10ms), success(10ms), fail(30ms);
    [total] is the reading of the total elapsed time. *)
Definition scenario (total : hrtime) : list event :=
  [ Settled None (ms 10) total; Settled failure (ms 20) total;
    Settled None (ms 10) total; Settled None (ms 10) total;
    Settled failure (ms 30) total ].

(** The state after one successful call of 10 ms in a run bounded to five
    requests. *)
Definition after_first : bench :=
  handleResponse (args_num 5) (bench_action (args_num 5)) None (ms 10) (ms 10).

(** Nine calls of 1 ms each, and the state they lead to under the default
    arguments: the tenth request is pending. *)
Definition nine_calls : list event := repeat (Settled None (ms 1) (ms 1)) 9.

Definition tenth_pending : bench :=
  Eval vm_compute in
    match run args_default nine_calls with
    | Some b => b
    | None => init args_default
    end.

(** Two requests, and the same two with the timer firing in between and
    other readings of the total elapsed time. *)
Definition two_calls : list event :=
  [ Settled None (ms 10) (ms 11); Settled failure (ms 20) (ms 32) ].

Definition two_calls_timer : list event :=
  [ Settled None (ms 10) (ms 15); TimerFired; Settled failure (ms 20) (ms 60001) ].

Definition two_calls_end : bench :=
  Eval vm_compute in
    match run (args_num 2) two_calls with
    | Some b => b
    | None => init (args_num 2)
    end.

Definition two_calls_timer_end : bench :=
  Eval vm_compute in
    match run (args_num 2) two_calls_timer with
    | Some b => b
    | None => init (args_num 2)
    end.

Definition two_calls_report : report :=
  printResult two_calls_end (duration_ms (ms 32)).

Definition two_calls_timer_report : report :=
  printResult two_calls_timer_end (duration_ms (ms 60001)).

(** A state of a run bounded to five requests in which the timer has fired
    while the first request is pending. *)
Definition timed_out_early : bench := fire_timer (bench_action (args_num 5)).

(** Three calls of a tenth of a millisecond each. *)
Definition tenths : list event :=
  [ Settled None (HR 0 100000) (HR 0 100000);
    Settled None (HR 0 100000) (HR 0 200000);
    Settled None (HR 0 100000) (HR 0 300000) ].

(** ** More observations on runs *)

Definition is_settled (ev : event) : bool :=
  match ev with Settled _ _ _ => true | _ => false end.

Definition is_timer (ev : event) : bool :=
  match ev with TimerFired => true | _ => false end.

(** Whether the call of an outcome was rejected. *)
Definition failed (c : option error * hrtime) : bool :=
  match fst c with Some _ => true | None => false end.

(** Most completions the event loop can handle in a row, with no other
    callback in between, once [count] requests have been issued. *)
Definition streak (count : N) : nat :=
  if (count mod 10 =? 0)%N then 1%nat else (11 - N.to_nat (count mod 10))%nat.

(** ** JavaScript values and [convertArgs] *)

(** The values an options object holds, as the command line parser leaves
    them in [args.options]: plain data. An object is the list of its own
    properties in enumeration order, under distinct keys; its prototype is
    [Object.prototype], which has no enumerable property, so that [_.forIn]
    visits the own properties and nothing else. *)
#[warnings="-register-all"] Inductive jsval : Type :=
| JUndefined
| JNull
| JBool (b : bool)
| JNum (x : number)
| JStr (s : string)
| JArr (items : list jsval)
| JObj (props : list (string * jsval)).

(** [obj[key]] where the property exists. *)
Fixpoint get (key : string) (props : list (string * jsval)) : option jsval :=
  match props with
  | [] => None
  | (k, v) :: rest => if (k =? key)%string then Some v else get key rest
  end.

(** What [convertArgs] builds. An array is the array it was given. An
    object is a fresh one: its own properties in enumeration order, and its
    prototype, [None] for [Object.prototype], which every object literal
    starts with, and [Some p] once an assignment to [__proto__] has made
    the object or array [p] the prototype. [convertArgs] yields no
    [null]. *)
#[warnings="-register-all"] Inductive jsres : Type :=
| RUndefined
| RBool (b : bool)
| RNum (x : number)
| RStr (s : string)
| RArr (items : list jsval)
| RObj (proto : option jsres) (props : list (string * jsres)).

Definition prototype (r : jsres) : option jsres :=
  match r with RObj proto _ => proto | _ => None end.

Definition own_props (r : jsres) : list (string * jsres) :=
  match r with RObj _ props => props | _ => [] end.

(** [obj[key]] on the own properties of a result. *)
Fixpoint rget (key : string) (props : list (string * jsres)) : option jsres :=
  match props with
  | [] => None
  | (k, v) :: rest => if (k =? key)%string then Some v else rget key rest
  end.

Definition is_proto_key (key : string) : bool := (key =? "__proto__")%string.

(** What the setter of [__proto__] accepts as a prototype, among the values
    [convertArgs] assigns: an object or an array. *)
Definition is_object_result (value : jsres) : bool :=
  match value with RArr _ | RObj _ _ => true | _ => false end.

(** [res[key] = value], on the prototype and the own properties of [res],
    for a [key] that [res] does not hold yet ([_.forIn] visits every key
    once). Under any other key than [__proto__] the assignment adds an own
    property. [__proto__] names the accessor that every object inherits
    from [Object.prototype]: the assignment calls its setter, which makes
    an object or array the prototype of [res] and ignores any other value;
    in neither case does [res] get an own property. *)
Definition assign (res : option jsres * list (string * jsres))
    (key : string) (value : jsres) : option jsres * list (string * jsres) :=
  if is_proto_key key then
    if is_object_result value then (Some value, snd res) else res
  else (fst res, snd res ++ [(key, value)]).

(** What the callback of [_.forIn] assigns for [value]: an array as it is,
    an object (and [null], whose [typeof] is "object" and over which
    [_.forIn] iterates nothing) converted in turn, by the assignments of
    its properties to a fresh object in enumeration order, the strings
    "true" and "false" as booleans, anything else as it is. *)
Fixpoint convertValue (value : jsval) : jsres :=
  match value with
  | JArr items => RArr items
  | JObj props =>
      let res :=
        fold_left (fun res kv => assign res (fst kv) (convertValue (snd kv)))
                  props (None, []) in
      RObj (fst res) (snd res)
  | JNull => RObj None []
  | JStr s =>
      if (s =? "true")%string then RBool true
      else if (s =? "false")%string then RBool false
      else RStr s
  | JUndefined => RUndefined
  | JBool b => RBool b
  | JNum x => RNum x
  end.

(** [convertArgs(args)] on the properties of [args]. *)
Definition convertArgs (args : list (string * jsval)) : jsres :=
  convertValue (JObj args).

(** The properties whose values are all there. *)
Fixpoint all_props (props : list (string * option jsres))
    : option (list (string * jsres)) :=
  match props with
  | [] => Some []
  | (k, Some r) :: rest =>
      match all_props rest with
      | Some rest' => Some ((k, r) :: rest')
      | None => None
      end
  | (_, None) :: _ => None
  end.

(** A plain value read as a result: the same value, every object with
    [Object.prototype] as its prototype. [null] is no result. *)
Fixpoint as_result (v : jsval) : option jsres :=
  match v with
  | JUndefined => Some RUndefined
  | JNull => None
  | JBool b => Some (RBool b)
  | JNum x => Some (RNum x)
  | JStr s => Some (RStr s)
  | JArr items => Some (RArr items)
  | JObj props =>
      option_map (RObj None)
                 (all_props (map (fun kv => (fst kv, as_result (snd kv))) props))
  end.

(** No object has an own property [__proto__], at any depth outside
    arrays. *)
Fixpoint plain_keys (v : jsval) : bool :=
  match v with
  | JObj props =>
      forallb (fun kv => negb (is_proto_key (fst kv)) && plain_keys (snd kv)) props
  | _ => true
  end.

(** A value with nothing for [convertArgs] to change: outside arrays, no
    [null], no string "true" or "false" and no property [__proto__]. *)
Fixpoint converted (v : jsval) : bool :=
  match v with
  | JNull => false
  | JStr s => negb (s =? "true")%string && negb (s =? "false")%string
  | JObj props =>
      forallb (fun kv => negb (is_proto_key (fst kv)) && converted (snd kv)) props
  | _ => true
  end.

(** The same of a result, prototypes included. *)
Fixpoint converted_result (r : jsres) : bool :=
  match r with
  | RStr s => negb (s =? "true")%string && negb (s =? "false")%string
  | RObj proto props =>
      match proto with Some p => converted_result p | None => true end
      && forallb (fun kv => negb (is_proto_key (fst kv)) && converted_result (snd kv))
                 props
  | _ => true
  end.

(** Options as [--verbose true --tags a --tags true --user.admin false]
    leaves them. *)
Definition sample_options : list (string * jsval) :=
  [ ("verbose", JStr "true");
    ("tags", JArr [JStr "a"; JStr "true"]);
    ("user", JObj [("admin", JStr "false"); ("name", JStr "ann")]);
    ("limit", JNum (of_Z 5)) ]%string.

(** An options object with own properties [__proto__], as [JSON.parse]
    builds them. *)
Definition polluted_options : list (string * jsval) :=
  [ ("a", JStr "true");
    ("__proto__", JObj [("admin", JStr "true")]);
    ("user", JObj [("__proto__", JStr "x"); ("name", JStr "ann")]) ]%string.

(** ** The [services] command *)

From Stdlib Require Import DecimalString Permutation Sorted.

(** ToBoolean on a value. *)
Definition js_truthy (v : jsval) : bool :=
  match v with
  | JUndefined | JNull => false
  | JBool b => b
  | JNum x => truthy x
  | JStr s => negb (s =? "")%string
  | JArr _ | JObj _ => true
  end.

(** [x === s] for a string [s]: true of that string only; no object, array
    or other primitive is strictly equal to a string. *)
Definition strict_equals_string (x : jsval) (s : string) : bool :=
  match x with
  | JStr t => (t =? s)%string
  | _ => false
  end.

(** [items.indexOf(s)] for a string [s]. *)
Fixpoint indexOf_string (items : list jsval) (s : string) : Z :=
  match items with
  | [] => -1
  | x :: rest =>
      if strict_equals_string x s then 0
      else if indexOf_string rest s =? -1 then -1
           else indexOf_string rest s + 1
  end.

Definition is_object (v : jsval) : bool :=
  match v with JObj _ => true | _ => false end.

(** [hLines.indexOf(index)] on numbers. *)
Fixpoint indexOf_Z (items : list Z) (index : Z) : Z :=
  match items with
  | [] => -1
  | x :: rest =>
      if x =? index then 0
      else if indexOf_Z rest index =? -1 then -1
           else indexOf_Z rest index + 1
  end.

(** [o[key]] on an object, [undefined] where there is no such property. *)
Definition prop (key : string) (o : jsval) : jsval :=
  match o with
  | JObj props => match get key props with Some v => v | None => JUndefined end
  | _ => JUndefined
  end.

(** A count turned into a string by [+]. *)
Definition decimal (n : N) : string := NilZero.string_of_uint (N.to_uint n).

(** An entry of [broker.registry.getServiceList(...)], as far as the command
    reads it: [actions] and [events] are objects, [version] any value. *)
Record service : Type := {
  s_name : string;
  s_version : jsval;
  s_nodeID : string;
  s_available : bool;
  s_actions : list (string * jsval);
  s_events : list (string * jsval)
}.

(** An element of [list]: a service with the nodes that run it. *)
Record service_item : Type := {
  i_name : string;
  i_version : jsval;
  i_nodes : list jsval;
  i_actionCount : N;
  i_eventCount : N;
  i_available : bool
}.

(** A cell handed to [table]: a value, or a text styled by [chalk]. *)
Inductive cell : Type :=
| Plain (v : jsval)
| Chalk (style : string) (text : string).

(** [{ nodeID: svc.nodeID, available: svc.available }] *)
Definition node_entry (svc : service) : jsval :=
  JObj [ ("nodeID", JStr (s_nodeID svc));
         ("available", JBool (s_available svc)) ]%string.

(** The item made for a service seen for the first time. *)
Definition new_item (svc : service) : service_item :=
  {| i_name := s_name svc; i_version := s_version svc;
     i_nodes := [node_entry svc];
     i_actionCount := N.of_nat (List.length (s_actions svc));
     i_eventCount := N.of_nat (List.length (s_events svc));
     i_available := s_available svc |}.

(** The item found for a further instance of its service, updated in place:
    one more node, and available as soon as one instance is. *)
Definition add_node (svc : service) (item : service_item) : service_item :=
  {| i_name := i_name item; i_version := i_version item;
     i_nodes := i_nodes item ++ [node_entry svc];
     i_actionCount := i_actionCount item;
     i_eventCount := i_eventCount item;
     i_available := if negb (i_available item) && s_available svc
                    then s_available svc else i_available item |}.

(** [available ? chalk.bgGreen.white("   OK   ") : chalk.bgRed.white.bold(" FAILED ")] *)
Definition state_cell (available : bool) : cell :=
  if available then Chalk "bgGreen.white" "   OK   "
  else Chalk "bgRed.white.bold" " FAILED ".

Definition services_header : list cell :=
  [ Chalk "bold" "Service"; Chalk "bold" "Version"; Chalk "bold" "State";
    Chalk "bold" "Actions"; Chalk "bold" "Events"; Chalk "bold" "Nodes" ].

(** The row of a service. [hasLocal] looks the broker's node ID, a string,
    up in [item.nodes], whose elements are objects. *)
Definition service_row (nodeID : string) (item : service_item) : list cell :=
  let hasLocal := negb (indexOf_string (i_nodes item) nodeID =? -1) in
  let nodeCount := N.of_nat (List.length (i_nodes item)) in
  [ Plain (JStr (i_name item));
    Plain (if js_truthy (i_version item) then i_version item else JStr "-");
    state_cell (i_available item);
    Plain (JNum (of_N (i_actionCount item)));
    Plain (JNum (of_N (i_eventCount item)));
    Plain (JStr ((if hasLocal then "(*) " else "") ++ decimal nodeCount)) ].

(** [drawHorizontalLine(index, count)] *)
Definition drawHorizontalLine (hLines : list Z) (index count : Z) : bool :=
  (index =? 0) || (index =? 1) || (index =? count)
  || negb (indexOf_Z hLines index =? -1).

Section Services.

(** [x == y] on versions; the conversions it makes between strings, numbers
    and objects are those of the language. *)
Variable loose_equals : jsval -> jsval -> bool.

(** [list.sort((a, b) => a.name.localeCompare(b.name))] *)
Variable localeSort : list service_item -> list service_item.

(** [o.name == svc.name && o.version == svc.version] *)
Definition same_service (svc : service) (o : service_item) : bool :=
  (i_name o =? s_name svc)%string && loose_equals (i_version o) (s_version svc).

(** The body of [services.forEach]: the first item of the same name and
    version gets the node, else a new item is pushed. *)
Fixpoint add_service (svc : service) (items : list service_item)
  : list service_item :=
  match items with
  | [] => [new_item svc]
  | o :: rest =>
      if same_service svc o then add_node svc o :: rest
      else o :: add_service svc rest
  end.

Definition group (services : list service) : list service_item :=
  fold_left (fun items svc => add_service svc items) services [].

(** The row of a node under its service. *)
Definition node_row (nodeID : string) (entry : jsval) : list cell :=
  [ Plain (JStr ""); Plain (JStr "");
    state_cell (js_truthy (prop "available" entry));
    Plain (JStr ""); Plain (JStr "");
    if loose_equals (prop "nodeID" entry) (JStr nodeID)
    then Chalk "gray" "<local>"
    else Plain (prop "nodeID" entry) ].

(** The body of [list.forEach]: [data] and [hLines] after one more item. *)
Definition push_item (details : bool) (nodeID : string)
    (st : list (list cell) * list Z) (item : service_item)
  : list (list cell) * list Z :=
  let data := fst st ++ [service_row nodeID item] in
  if details
  then let data' := data ++ map (node_row nodeID) (i_nodes item) in
       (data', snd st ++ [Z.of_nat (List.length data')])
  else (data, snd st).

(** [data] and [hLines] as the command hands them to [table]. *)
Definition services_table (details : bool) (nodeID : string)
    (services : list service) : list (list cell) * list Z :=
  fold_left (push_item details nodeID) (localeSort (group services))
            ([services_header], []).

(** The nodes counted over all items. *)
Definition node_total (items : list service_item) : nat :=
  list_sum (map (fun item => List.length (i_nodes item)) items).

(** What holds of every item of [list]: its nodes are objects, there is at
    least one, and it is available exactly when one of them is. *)
Definition item_ok (item : service_item) : Prop :=
  forallb is_object (i_nodes item) = true /\
  i_nodes item <> [] /\
  i_available item
  = existsb (fun e => js_truthy (prop "available" e)) (i_nodes item).

(** The rows of one service: its own, then with [--details] one per
    node. *)
Definition block (details : bool) (nodeID : string) (item : service_item)
  : list (list cell) :=
  service_row nodeID item
  :: (if details then map (node_row nodeID) (i_nodes item) else []).

End Services.

(** The row indexes at which the blocks of [items] end, the first block
    starting at row [start]. *)
Fixpoint block_ends (start : nat) (items : list service_item) : list Z :=
  match items with
  | [] => []
  | item :: rest =>
      let e := (start + 1 + List.length (i_nodes item))%nat in
      Z.of_nat e :: block_ends e rest
  end.

(** [==] on two values of the same primitive type. *)
Definition same_type_equals (x y : jsval) : bool :=
  match x, y with
  | JUndefined, JUndefined => true
  | JNull, JNull => true
  | JBool a, JBool b => Bool.eqb a b
  | JNum a, JNum b => SFeqb a b
  | JStr a, JStr b => (a =? b)%string
  | _, _ => false
  end.

Definition sample_service (name node : string) (up : bool) : service :=
  {| s_name := name; s_version := JNum (of_Z 1); s_nodeID := node;
     s_available := up;
     s_actions := [("add", JObj []); ("sub", JObj [])]%string;
     s_events := [] |}.

(** The item of [users] on the local node. *)
Definition sample_users : service_item := new_item (sample_service "users" "node-1" true).

(** [math] on two nodes, the first one down, and [users] on the local
    node. *)
Definition sample_services : list service :=
  [ sample_service "math" "node-2" false;
    sample_service "users" "node-1" true;
    sample_service "math" "node-1" true ].

(** * Properties *)

(** ** The comparison of numbers is a strict order away from NaN *)

Lemma js_lt_key (x y : number) :
  is_nan x = false -> is_nan y = false ->
  (js_lt x y = true <-> lt3 (key x) (key y)).
Proof.
  unfold js_lt, SFltb.
  destruct x as [sx|sx| |sx mx ex], y as [sy|sy| |sy my ey];
    try discriminate; intros _ _;
    try destruct sx; try destruct sy; cbn [SFcompare key lt3];
    try (split; order_dir);
    destruct (Z.compare_spec ex ey); try (split; order_dir);
    subst; rewrite Pos.compare_cont_spec; simpl;
    destruct (Pos.compare_spec mx my); simpl; split; order_dir.
Qed.

Lemma js_le_key (x y : number) :
  is_nan x = false -> is_nan y = false ->
  (js_le x y = true <-> le3 (key x) (key y)).
Proof.
  unfold js_le, SFleb, le3.
  destruct x as [sx|sx| |sx mx ex], y as [sy|sy| |sy my ey];
    try discriminate; intros _ _;
    try destruct sx; try destruct sy; cbn [SFcompare key lt3];
    try le_dir;
    destruct (Z.compare_spec ex ey); try le_dir;
    subst; rewrite Pos.compare_cont_spec; simpl;
    destruct (Pos.compare_spec mx my); simpl; subst; le_dir.
Qed.

Lemma js_lt_not_nan (x y : number) :
  js_lt x y = true -> is_nan x = false /\ is_nan y = false.
Proof.
  unfold js_lt, SFltb. destruct x, y; simpl; try discriminate; auto.
Qed.

Lemma js_lt_irrefl (x : number) : js_lt x x = false.
Proof.
  destruct (is_nan x) eqn:N.
  - destruct x; try discriminate; reflexivity.
  - destruct (js_lt x x) eqn:L; [ | reflexivity ].
    apply (js_lt_key x x N N) in L. unfold lt3 in L.
    destruct (key x) as [[a b] c]. lia.
Qed.

Lemma js_lt_asym (x y : number) : js_lt x y = true -> js_lt y x = false.
Proof.
  intro L. destruct (js_lt_not_nan _ _ L) as [Nx Ny].
  destruct (js_lt y x) eqn:L'; [ | reflexivity ].
  apply (js_lt_key _ _ Nx Ny) in L. apply (js_lt_key _ _ Ny Nx) in L'.
  unfold lt3 in *. destruct (key x) as [[a b] c], (key y) as [[a' b'] c']. lia.
Qed.

Lemma js_lt_trans (x y z : number) :
  js_lt x y = true -> js_lt y z = true -> js_lt x z = true.
Proof.
  intros L1 L2.
  destruct (js_lt_not_nan _ _ L1) as [Nx Ny].
  destruct (js_lt_not_nan _ _ L2) as [_ Nz].
  apply (js_lt_key _ _ Nx Ny) in L1. apply (js_lt_key _ _ Ny Nz) in L2.
  apply (js_lt_key _ _ Nx Nz).
  unfold lt3 in *.
  destruct (key x) as [[a b] c], (key y) as [[a' b'] c'], (key z) as [[a2 b2] c2]. lia.
Qed.

Lemma js_le_refl (x : number) : is_nan x = false -> js_le x x = true.
Proof. intro N. apply (js_le_key x x N N). right. reflexivity. Qed.

Lemma js_le_trans (x y z : number) :
  is_nan y = false ->
  js_le x y = true -> js_le y z = true -> js_le x z = true.
Proof.
  intros Ny L1 L2.
  assert (Nx : is_nan x = false) by (destruct x; try reflexivity; discriminate).
  assert (Nz : is_nan z = false) by (destruct z; try reflexivity; destruct y; discriminate).
  apply (js_le_key _ _ Nx Ny) in L1. apply (js_le_key _ _ Ny Nz) in L2.
  apply (js_le_key _ _ Nx Nz).
  unfold le3, lt3 in *.
  destruct (key x) as [[a b] c], (key y) as [[a' b'] c'], (key z) as [[a2 b2] c2].
  destruct L1 as [L1|L1], L2 as [L2|L2];
    try (inversion L1; subst); try (inversion L2; subst);
    first [ right; reflexivity | left; lia ].
Qed.

Lemma js_not_lt_le (x y : number) :
  is_nan x = false -> is_nan y = false ->
  js_lt x y = false -> js_le y x = true.
Proof.
  intros Nx Ny L. apply (js_le_key _ _ Ny Nx).
  assert (K : ~ lt3 (key x) (key y)).
  { intro K. apply (js_lt_key _ _ Nx Ny) in K. congruence. }
  unfold le3, lt3 in *.
  destruct (key x) as [[a b] c], (key y) as [[a' b'] c'].
  destruct (Z.eq_dec a a'), (Z.eq_dec b b'), (Z.eq_dec c c');
    subst; first [ right; reflexivity | left; lia ].
Qed.

Lemma js_lt_le (x y : number) : js_lt x y = true -> js_le x y = true.
Proof.
  unfold js_lt, js_le, SFltb, SFleb. destruct (SFcompare x y) as [[ | | ]|]; auto.
Qed.

Create HintDb js_order.
#[local] Hint Resolve js_le_refl js_lt_le js_not_lt_le : js_order.

(** ** Rounding keeps the sign, so a duration is never NaN *)

Lemma shr_1_nonneg (mrs : shr_record) : 0 <= shr_m mrs -> 0 <= shr_m (shr_1 mrs).
Proof.
  destruct mrs as [m r s]. simpl. destruct m as [|p|p]; simpl; try lia; destruct p; simpl; lia.
Qed.

Lemma iter_shr_1_nonneg (p : positive) :
  forall mrs, 0 <= shr_m mrs -> 0 <= shr_m (iter_pos shr_1 p mrs).
Proof.
  induction p as [p IH|p IH|]; intros mrs H; simpl.
  - apply IH, IH, shr_1_nonneg, H.
  - apply IH, IH, H.
  - apply shr_1_nonneg, H.
Qed.

Lemma shr_fexp_nonneg (m e : Z) (l : location) :
  0 <= m -> 0 <= shr_m (fst (shr_fexp prec emax m e l)).
Proof.
  intro H. unfold shr_fexp, shr.
  assert (H0 : 0 <= shr_m (shr_record_of_loc m l)).
  { destruct l as [|[ | | ]]; exact H. }
  destruct (fexp prec emax (Zdigits2 m + e) - e); simpl; auto.
  apply iter_shr_1_nonneg, H0.
Qed.

Lemma round_nearest_even_nonneg (m : Z) (l : location) :
  0 <= m -> 0 <= round_nearest_even m l.
Proof.
  intro H. destruct l as [|[ | | ]]; simpl; try lia. destruct (Z.even m); lia.
Qed.

Lemma binary_round_aux_nonneg (mx ex : Z) (lx : location) :
  0 <= mx -> nonneg (binary_round_aux prec emax false mx ex lx) = true.
Proof.
  intro H. unfold binary_round_aux.
  pose proof (shr_fexp_nonneg mx ex lx H) as H1.
  destruct (shr_fexp prec emax mx ex lx) as [mrs' e']. simpl in H1.
  pose proof (shr_fexp_nonneg _ e' loc_Exact
                (round_nearest_even_nonneg _ (loc_of_shr_record mrs') H1)) as H2.
  destruct (shr_fexp prec emax _ e' loc_Exact) as [mrs'' e'']. simpl in H2.
  destruct (shr_m mrs'') as [|m|m]; try reflexivity; [ | lia ].
  destruct (e'' <=? emax - prec); reflexivity.
Qed.

Lemma binary_normalize_nonneg (m e : Z) (szero : bool) :
  0 <= m -> nonneg (binary_normalize prec emax m e szero) = true.
Proof.
  intro H. unfold binary_normalize. destruct m as [|p|p]; try reflexivity; [ | lia ].
  unfold binary_round. destruct (shl_align _ _ _) as [mz ez].
  apply binary_round_aux_nonneg. lia.
Qed.

Lemma of_N_nonneg (n : N) : nonneg (of_N n) = true.
Proof. apply binary_normalize_nonneg. lia. Qed.

Lemma js_add_nonneg (x y : number) :
  nonneg x = true -> nonneg y = true -> nonneg (x + y)%js = true.
Proof.
  unfold js_add.
  destruct x as [sx|sx| |sx mx ex], y as [sy|sy| |sy my ey]; simpl;
    try discriminate; try (destruct sx; try discriminate);
    try (destruct sy; try discriminate); try reflexivity.
  intros _ _. apply binary_normalize_nonneg. simpl. lia.
Qed.

Lemma js_mul_nonneg_finite (x : number) (m : positive) (e : Z) :
  nonneg x = true -> nonneg (x * S754_finite false m e)%js = true.
Proof.
  unfold js_mul.
  destruct x as [sx|sx| |sx mx ex]; simpl;
    try discriminate; try (destruct sx; try discriminate); try reflexivity.
  intros _. apply binary_round_aux_nonneg. lia.
Qed.

Lemma js_div_nonneg_finite (x : number) (m : positive) (e : Z) :
  nonneg x = true -> nonneg (x / S754_finite false m e)%js = true.
Proof.
  unfold js_div.
  destruct x as [sx|sx| |sx mx ex]; simpl;
    try discriminate; try (destruct sx; try discriminate); try reflexivity.
  intros _. unfold SFdiv_core_binary.
  set (m' := match _ - _ with Z0 => _ | Zpos _ => _ | Zneg _ => _ end).
  assert (H : 0 <= m').
  { subst m'. destruct (_ - _)%Z; try lia. apply Z.shiftl_nonneg. lia. }
  pose proof (Z.div_pos m' (Z.pos m) H ltac:(lia)) as Q.
  unfold Z.div in Q.
  destruct (Z.div_eucl m' (Z.pos m)) as [q r]. simpl in Q.
  apply binary_round_aux_nonneg, Q.
Qed.

Lemma nonneg_not_nan (x : number) : nonneg x = true -> is_nan x = false.
Proof. destruct x; simpl; congruence. Qed.

Lemma duration_ms_nonneg (diff : hrtime) : nonneg (duration_ms diff) = true.
Proof.
  unfold duration_ms.
  change (of_N 1000) with (S754_finite false 8796093022208000 (-43)).
  change (of_N 1000000000) with (S754_finite false 8388608000000000 (-23)).
  apply js_mul_nonneg_finite, js_add_nonneg.
  - apply of_N_nonneg.
  - apply js_div_nonneg_finite, of_N_nonneg.
Qed.

(** A reading of 10 ms is the number 10; a reading of 100000 ns is the
    double nearest to 0.1. *)
Example duration_ms_ten : duration_ms (ms 10) = of_Z 10.
Proof. vm_compute. reflexivity. Qed.

Example duration_ms_tenth :
  duration_ms (HR 0 100000) = S754_finite false 7205759403792794 (-56).
Proof. vm_compute. reflexivity. Qed.

(** ** What the callbacks do to the statistics *)

Lemma stats_record_outcome_ext (b1 b2 : bench) (err : option error) (diff : hrtime) :
  stats b1 = stats b2 ->
  stats (record_outcome b1 err diff) = stats (record_outcome b2 err diff).
Proof.
  unfold stats, record_outcome. simpl. intro E. inversion E as [[E1 E2 E3 E4 E5]].
  rewrite E1, E2, E3, E4, E5. reflexivity.
Qed.

Lemma aggregate_app (cs1 cs2 : list (option error * hrtime)) (b : bench) :
  aggregate b (cs1 ++ cs2) = aggregate (aggregate b cs1) cs2.
Proof. apply fold_left_app. Qed.

Lemma stats_ok_ext (lats : list number) (b1 b2 : bench) :
  stats b1 = stats b2 -> stats_ok lats b1 -> stats_ok lats b2.
Proof.
  unfold stats, stats_ok. intro E. inversion E as [[E1 E2 E3 E4 E5]].
  rewrite E1, E2, E3, E4, E5. auto.
Qed.

(** Recording one more latency keeps the invariant. *)
Lemma stats_ok_record (lats : list number) (b : bench)
    (err : option error) (diff : hrtime) :
  stats_ok lats b ->
  stats_ok (lats ++ [duration_ms diff]) (record_outcome b err diff).
Proof.
  intros (Hc & He & Hn & Hs & Hnil & Hcons).
  set (d := duration_ms diff).
  assert (Nd : is_nan d = false) by apply nonneg_not_nan, duration_ms_nonneg.
  unfold stats_ok. simpl. fold d.
  split; [ | split; [ | split; [ | split; [ | split ] ] ] ].
  - rewrite Hc, length_app. simpl. lia.
  - destruct err; lia.
  - apply Forall_app. split; [ exact Hn | constructor; [ exact Nd | constructor ] ].
  - rewrite fold_left_app, Hs. reflexivity.
  - intro E. destruct lats; discriminate.
  - intros _. destruct lats as [|l0 lats'] eqn:L.
    + destruct (Hnil eq_refl) as [-> ->]. simpl.
      exists d, d.
      repeat match goal with |- _ /\ _ => split end; auto.
      intros l [<-|[]]. auto with js_order.
    + destruct Hcons as (mn & mx & -> & -> & Imn & Imx & B); [ discriminate | ].
      rewrite <- L in *. clear L.
      assert (Nmn : is_nan mn = false) by (rewrite Forall_forall in Hn; auto).
      assert (Nmx : is_nan mx = false) by (rewrite Forall_forall in Hn; auto).
      exists (if (d <? mn)%js then d else mn), (if (d >? mx)%js then d else mx).
      split; [ destruct (d <? mn)%js; reflexivity | ].
      split; [ destruct (d >? mx)%js; reflexivity | ].
      split; [ destruct (d <? mn)%js; apply in_or_app; simpl; auto | ].
      split; [ destruct (d >? mx)%js; apply in_or_app; simpl; auto | ].
      intros l Il. apply in_app_or in Il.
      split.
      * destruct (d <? mn)%js eqn:Lt.
        -- destruct Il as [Il|[<-|[]]]; [ | auto with js_order ].
           apply (js_le_trans d mn l Nmn); [ auto with js_order | apply (B l Il) ].
        -- destruct Il as [Il|[<-|[]]]; [ apply (B l Il) | auto with js_order ].
      * unfold js_gt. fold (js_lt mx d). destruct (js_lt mx d) eqn:Gt.
        -- destruct Il as [Il|[<-|[]]]; [ | auto with js_order ].
           apply (js_le_trans l mx d Nmx); [ apply (B l Il) | auto with js_order ].
        -- destruct Il as [Il|[<-|[]]]; [ apply (B l Il) | auto with js_order ].
Qed.

(** ** Invariants of a run *)

Section Runs.

Variable args : bench_args.

Lemma stats_handleResponse (b : bench) (err : option error) (diff total : hrtime) :
  stats (handleResponse args b err diff total) = stats (record_outcome b err diff).
Proof.
  unfold handleResponse.
  destruct (should_stop args _); [ reflexivity | ].
  destruct (fast_cycle _); reflexivity.
Qed.

Lemma finished_handleResponse (b : bench) (err : option error) (diff total : hrtime) :
  finished (handleResponse args b err diff total)
  = should_stop args (record_outcome b err diff).
Proof.
  unfold handleResponse.
  destruct (should_stop args _); [ reflexivity | ].
  destruct (fast_cycle _); reflexivity.
Qed.

(** Every enabled callback is one of three moves. *)
Lemma step_cases (b b' : bench) (ev : event) :
  step args b ev = Some b' ->
  (exists err diff total,
      ev = Settled err diff total /\ control b = InFlight /\
      b' = handleResponse args b err diff total) \/
  (ev = Immediate /\ control b = Deferred /\ b' = doRequest b) \/
  (ev = TimerFired /\ timer b <> None /\ b' = fire_timer b).
Proof.
  destruct ev as [err diff total| |]; simpl.
  - destruct (control b); try discriminate. intros [= <-].
    left. exists err, diff, total. auto.
  - destruct (control b); try discriminate. intros [= <-]. right. left. auto.
  - destruct (timer b); try discriminate. intros [= <-]. right. right.
    repeat split. discriminate.
Qed.

(** An invariant of the callbacks that holds of the start holds of every
    state of a run. *)
Lemma run_from_invariant (P : list event -> bench -> Prop) :
  (forall pre b ev b', P pre b -> step args b ev = Some b' -> P (pre ++ [ev]) b') ->
  forall tr pre b b',
    P pre b -> run_from args b tr = Some b' -> P (pre ++ tr) b'.
Proof.
  intros Hstep tr. induction tr as [|ev tr IH]; intros pre b b' H; cbn [run_from].
  - intros [= <-]. rewrite app_nil_r. exact H.
  - destruct (step args b ev) as [b1|] eqn:S; [ | discriminate ].
    intro R. change (ev :: tr) with ([ev] ++ tr). rewrite app_assoc.
    apply (IH _ b1); [ apply (Hstep _ b); assumption | exact R ].
Qed.

Lemma run_invariant (P : list event -> bench -> Prop) :
  (forall pre b ev b', P pre b -> step args b ev = Some b' -> P (pre ++ [ev]) b') ->
  P [] (bench_action args) ->
  forall tr b, run args tr = Some b -> P tr b.
Proof.
  intros Hstep H0 tr b R. apply (run_from_invariant P Hstep tr [] _ b H0 R).
Qed.

Lemma completions_snoc (pre : list event) (ev : event) :
  completions (pre ++ [ev]) = completions pre ++ completions [ev].
Proof. unfold completions. rewrite flat_map_app. reflexivity. Qed.

Lemma latencies_snoc (pre : list event) (ev : event) :
  latencies (pre ++ [ev]) = latencies pre ++ latencies [ev].
Proof. unfold latencies. rewrite completions_snoc, map_app. reflexivity. Qed.

(** The statistics are those of the outcomes handled, recorded in order. *)
Lemma run_stats (tr : list event) (b : bench) :
  run args tr = Some b ->
  stats b = stats (aggregate (bench_action args) (completions tr)).
Proof.
  apply (run_invariant
           (fun tr b => stats b = stats (aggregate (bench_action args) (completions tr))));
    [ | reflexivity ].
  intros pre b0 ev b' H S.
  rewrite completions_snoc, aggregate_app.
  destruct (step_cases _ _ _ S)
    as [(err & diff & total & -> & _ & ->)|[(-> & _ & ->)|(-> & _ & ->)]].
  - rewrite stats_handleResponse. apply stats_record_outcome_ext, H.
  - exact H.
  - exact H.
Qed.

Lemma run_report_matches (tr : list event) (b : bench) :
  run args tr = Some b -> report_matches b.
Proof.
  apply (run_invariant (fun _ b => report_matches b)); [ | exact I ].
  unfold report_matches. intros pre b0 ev b' H S.
  destruct (step_cases _ _ _ S)
    as [(err & diff & total & -> & _ & ->)|[(-> & _ & ->)|(-> & _ & ->)]].
  - unfold handleResponse. destruct (should_stop args _); simpl.
    + exists (duration_ms total). reflexivity.
    + destruct (fast_cycle _); exact I.
  - exact I.
  - simpl. destruct (control b0); auto.
Qed.

Lemma run_report (tr : list event) (b : bench) (r : report) :
  run args tr = Some b -> control b = Finished r ->
  exists duration, r = printResult b duration.
Proof.
  intros R C. pose proof (run_report_matches _ _ R) as M.
  unfold report_matches in M. rewrite C in M. exact M.
Qed.

Lemma run_stats_ok (tr : list event) (b : bench) :
  run args tr = Some b -> stats_ok (latencies tr) b.
Proof.
  apply (run_invariant (fun tr b => stats_ok (latencies tr) b)).
  - intros pre b0 ev b' H S. rewrite latencies_snoc.
    destruct (step_cases _ _ _ S)
      as [(err & diff & total & -> & _ & ->)|[(-> & _ & ->)|(-> & _ & ->)]].
    + apply (stats_ok_ext _ (record_outcome b0 err diff)).
      * symmetry. apply stats_handleResponse.
      * apply stats_ok_record, H.
    + change (latencies [Immediate]) with (@nil number). rewrite app_nil_r. exact H.
    + change (latencies [TimerFired]) with (@nil number). rewrite app_nil_r. exact H.
  - unfold stats_ok. simpl.
    repeat match goal with |- _ /\ _ => split end; auto; try lia.
    intro H. contradiction.
Qed.

(** The extrema are recorded durations, hence never NaN. *)
Lemma run_extrema_not_nan (tr : list event) (b : bench) :
  run args tr = Some b ->
  (forall m, minTime b = Some m -> is_nan m = false) /\
  (forall m, maxTime b = Some m -> is_nan m = false).
Proof.
  intro R. destruct (run_stats_ok _ _ R) as (_ & _ & Hn & _ & Hnil & Hcons).
  rewrite Forall_forall in Hn.
  destruct (latencies tr) as [|l0 ls] eqn:L.
  - destruct (Hnil eq_refl) as [H1 H2]. split; intros m Hm; congruence.
  - destruct Hcons as (mn & mx & H1 & H2 & I1 & I2 & _); [ discriminate | ].
    split; intros m Hm; [ assert (m = mn) by congruence | assert (m = mx) by congruence ];
      subst; auto.
Qed.


End Runs.

(** ** The termination check *)

Lemma should_stop_spec (args : bench_args) (b : bench) :
  should_stop args b = true <-> stop_condition args b.
Proof.
  unfold should_stop, stop_condition, maxRequests_set, truthyZ.
  destruct (timeout b); simpl; [ split; auto | ].
  destruct (iterate args) as [n|].
  - split.
    + intro H. apply andb_true_iff in H. destruct H as [H1 H2].
      right. exists n. apply negb_true_iff, Z.eqb_neq in H1. apply Z.leb_le in H2. auto.
    + intros [H|(n' & [[= <-] H1] & H2)]; [ discriminate | ].
      apply andb_true_iff. split; [ apply negb_true_iff, Z.eqb_neq, H1 | apply Z.leb_le, H2 ].
  - split; [ discriminate | ].
    intros [H|(n' & [H _] & _)]; discriminate.
Qed.

Lemma should_stop_unbounded (args : bench_args) (b : bench) :
  num args = None -> should_stop args b = timeout b.
Proof.
  intro H. unfold should_stop, iterate. rewrite H. apply orb_false_r.
Qed.

Lemma timer_delay_default (args : bench_args) :
  num args = None -> time args = None -> timer_delay args = of_Z 5000.
Proof.
  intros Hn Ht. unfold timer_delay, bench_time, iterate. rewrite Hn, Ht. reflexivity.
Qed.

(** C1: the first request is issued before any check; a callback ends the
    run exactly when it is a completion and, with that completion recorded,
    the timer has fired or a set request bound is reached; the timer flag
    is raised by the timer callback only; with [--num] and [--time] both
    absent the timer is armed with 5000 ms and a completion ends the run
    exactly when the flag is up. *)
Theorem termination_check (args : bench_args) (b b' : bench) (ev : event) :
  finished b = false ->
  step args b ev = Some b' ->
  (control (bench_action args) = InFlight /\
   count (bench_action args) = 1%N /\ resCount (bench_action args) = 0%N) /\
  (finished b' = true <->
   exists err diff total,
     ev = Settled err diff total /\ stop_condition args (record_outcome b err diff)) /\
  (timeout b' = true <-> timeout b = true \/ ev = TimerFired) /\
  (num args = None -> time args = None ->
   timer (bench_action args) = Some (of_Z 5000) /\
   (finished b' = true <->
    (exists err diff total, ev = Settled err diff total) /\ timeout b = true)).
Proof.
  intros F S.
  split; [ repeat split | ].
  assert (D : num args = None -> time args = None ->
              timer (bench_action args) = Some (of_Z 5000)).
  { intros Hn Ht. simpl. rewrite (timer_delay_default _ Hn Ht). reflexivity. }
  destruct (step_cases _ _ _ _ S)
    as [(err & diff & total & -> & _ & ->)|[(-> & _ & ->)|(-> & _ & ->)]].
  - rewrite finished_handleResponse, should_stop_spec.
    assert (T : timeout (handleResponse args b err diff total) = timeout b).
    { unfold handleResponse. destruct (should_stop args _); [ reflexivity | ].
      destruct (fast_cycle _); reflexivity. }
    split; [ | split ].
    + split.
      * intro H. exists err, diff, total. auto.
      * intros (err' & diff' & total' & [= <- <- <-] & H). exact H.
    + rewrite T. split; [ auto | intros [H|H]; [ exact H | discriminate ] ].
    + intros Hn Ht. split; [ auto | ].
      rewrite <- should_stop_spec, (should_stop_unbounded _ _ Hn). simpl. split.
      * intro H. split; [ exists err, diff, total; reflexivity | exact H ].
      * intros [_ H]. exact H.
  - split; [ | split ].
    + split; [ discriminate | intros (err & diff & total & H & _); discriminate ].
    + simpl. split; [ auto | intros [H|H]; [ exact H | discriminate ] ].
    + intros Hn Ht. split; [ auto | ].
      split; [ discriminate | intros [(err & diff & total & H) _]; discriminate ].
  - assert (F' : finished (fire_timer b) = false) by exact F.
    rewrite F'. split; [ | split ].
    + split; [ discriminate | intros (err & diff & total & H & _); discriminate ].
    + simpl. split; auto.
    + intros Hn Ht. split; [ auto | ].
      split; [ discriminate | intros [(err & diff & total & H) _]; discriminate ].
Qed.

Lemma termination_check_witness :
  finished (bench_action (args_num 1)) = false /\
  step (args_num 1) (bench_action (args_num 1)) (Settled None (ms 10) (ms 12))
  = Some (handleResponse (args_num 1) (bench_action (args_num 1)) None (ms 10) (ms 12)) /\
  finished (handleResponse (args_num 1) (bench_action (args_num 1)) None (ms 10) (ms 12))
  = true.
Proof.
  split; [ reflexivity | split; [ reflexivity | ] ].
  destruct (termination_check (args_num 1) (bench_action (args_num 1))
              (handleResponse (args_num 1) (bench_action (args_num 1)) None (ms 10) (ms 12))
              (Settled None (ms 10) (ms 12)) eq_refl eq_refl) as (_ & H & _).
  apply H. exists None, (ms 10), (ms 12). split; [ reflexivity | ].
  right. exists 1. repeat split; simpl; lia.
Defined.

(** ** The statistics update *)

(** C2: recording an outcome adds one to the completion count, one to the
    error count exactly when the call failed, the latency (of a failed call
    too) to the sum, and leaves in [minTime] the latency if nothing was
    recorded, else the smaller of the old minimum and the latency, and in
    [maxTime] the same with the larger. *)
Theorem statistics_update (args : bench_args) (tr : list event) (b : bench)
    (err : option error) (diff total : hrtime) :
  run args tr = Some b ->
  let b' := handleResponse args b err diff total in
  let latency := duration_ms diff in
  resCount b' = (resCount b + 1)%N /\
  errorCount b' = (errorCount b + match err with Some _ => 1 | None => 0 end)%N /\
  sumTime b' = (sumTime b + latency)%js /\
  (minTime b = None -> minTime b' = Some latency) /\
  (forall m, minTime b = Some m ->
             exists r, minTime b' = Some r /\ minimum_of r m latency) /\
  (maxTime b = None -> maxTime b' = Some latency) /\
  (forall m, maxTime b = Some m ->
             exists r, maxTime b' = Some r /\ maximum_of r m latency).
Proof.
  intros R b' latency.
  pose proof (stats_handleResponse args b err diff total) as E.
  fold b' in E. unfold stats in E. inversion E as [[E1 E2 E3 E4 E5]]. clear E.
  assert (Nl : is_nan latency = false) by apply nonneg_not_nan, duration_ms_nonneg.
  destruct (run_extrema_not_nan _ _ _ R) as [Nmin Nmax].
  fold latency in E3, E4, E5. clearbody b' latency.
  rewrite E1, E2, E3, E4, E5. clear E1 E2 E3 E4 E5.
  split; [ reflexivity | ].
  split; [ destruct err; [ reflexivity | apply eq_sym, N.add_0_r ] | ].
  split; [ reflexivity | ].
  split; [ intros ->; reflexivity | ].
  split; [ | split; [ intros ->; reflexivity | ] ].
  - intros m Hm. rewrite Hm. specialize (Nmin m Hm).
    unfold minimum_of.
    destruct (latency <? m)%js eqn:Lt; eexists; (split; [ reflexivity | ]);
      auto 6 with js_order.
  - intros m Hm. rewrite Hm. specialize (Nmax m Hm).
    unfold maximum_of, js_gt. fold (js_lt m latency).
    destruct (js_lt m latency) eqn:Gt; eexists; (split; [ reflexivity | ]);
      auto 6 with js_order.
Qed.

Lemma statistics_update_witness :
  run (args_num 5) [Settled None (ms 10) (ms 10)] = Some after_first /\
  let b' := handleResponse (args_num 5) after_first failure (ms 20) (ms 30) in
  let latency := duration_ms (ms 20) in
  resCount b' = (resCount after_first + 1)%N /\
  errorCount b' = (errorCount after_first + 1)%N /\
  sumTime b' = (sumTime after_first + latency)%js /\
  (minTime after_first = None -> minTime b' = Some latency) /\
  (forall m, minTime after_first = Some m ->
             exists r, minTime b' = Some r /\ minimum_of r m latency) /\
  (maxTime after_first = None -> maxTime b' = Some latency) /\
  (forall m, maxTime after_first = Some m ->
             exists r, maxTime b' = Some r /\ maximum_of r m latency).
Proof.
  split; [ reflexivity | ].
  apply (statistics_update (args_num 5) [Settled None (ms 10) (ms 10)] after_first
           failure (ms 20) (ms 30)); reflexivity.
Defined.

(** ** Fast and slow cycles *)

Lemma fast_cycle_spec (count : N) :
  fast_cycle count = false <-> (count mod 10 = 0)%N.
Proof.
  unfold fast_cycle, cycle_expr. rewrite negb_false_iff, N.eqb_eq. lia.
Qed.

(** C3, as the code has it: [count % 10 * 1000] is [(count % 10) * 1000],
    so that after a completion that does not end the run the next request
    is deferred with [setImmediate] exactly when the number of requests
    issued so far is a multiple of 10, and issued at once otherwise. *)
Theorem deferral_every_tenth (args : bench_args) (b : bench)
    (err : option error) (diff total : hrtime) :
  should_stop args (record_outcome b err diff) = false ->
  (control (handleResponse args b err diff total) = Deferred
   <-> (count b mod 10 = 0)%N) /\
  (control (handleResponse args b err diff total) = InFlight
   <-> (count b mod 10 <> 0)%N).
Proof.
  intro H. unfold handleResponse. rewrite H.
  change (count (record_outcome b err diff)) with (count b).
  destruct (fast_cycle (count b)) eqn:Fc; simpl.
  - assert (N : (count b mod 10 <> 0)%N).
    { intro E. apply fast_cycle_spec in E. congruence. }
    split; split; try discriminate; auto. intro E. contradiction.
  - apply fast_cycle_spec in Fc.
    split; split; try discriminate; auto. intro E. contradiction.
Qed.

Lemma deferral_every_tenth_witness :
  run args_default nine_calls = Some tenth_pending /\
  should_stop args_default (record_outcome tenth_pending None (ms 1)) = false /\
  control (handleResponse args_default tenth_pending None (ms 1) (ms 9)) = Deferred.
Proof.
  split; [ vm_compute; reflexivity | ].
  split; [ reflexivity | ].
  apply (deferral_every_tenth args_default tenth_pending None (ms 1) (ms 9));
    reflexivity.
Defined.

(** C3, as the claim has it, fails at the tenth request: [10 % 10 * 1000]
    is [0], the slow cycle is taken and the next request is deferred,
    although 10 is no multiple of 10000. *)
Lemma deferral_every_10000_refuted :
  run args_default nine_calls = Some tenth_pending /\
  count tenth_pending = 10%N /\
  cycle_expr (count tenth_pending) = 0%N /\
  fast_cycle (count tenth_pending) = false /\
  control (handleResponse args_default tenth_pending None (ms 1) (ms 9)) = Deferred /\
  (count tenth_pending mod 10000 <> 0)%N.
Proof.
  split; [ vm_compute; reflexivity | ].
  repeat split; try reflexivity. discriminate.
Qed.

(** ** Bounds on the statistics *)

Lemma run_nonempty_latencies (args : bench_args) (tr : list event) (b : bench) :
  run args tr = Some b -> (0 < resCount b)%N -> latencies tr <> [].
Proof.
  intros R P E. destruct (run_stats_ok _ _ _ R) as (Hc & _).
  rewrite E in Hc. simpl in Hc. lia.
Qed.

(** C4, as the code has it: in every state of a run the error count is at
    most the completion count, and once a call has completed [minTime] and
    [maxTime] are two of the recorded latencies, with every recorded latency
    between them. Nothing is said of the rounded quotient
    [sumTime / resCount]. *)
Theorem statistics_invariant (args : bench_args) (tr : list event) (b : bench) :
  run args tr = Some b ->
  (0 <= errorCount b <= resCount b)%N /\
  resCount b = N.of_nat (List.length (latencies tr)) /\
  sumTime b = fold_left js_add (latencies tr) (of_Z 0) /\
  ((0 < resCount b)%N ->
   exists mn mx,
     minTime b = Some mn /\ maxTime b = Some mx /\
     In mn (latencies tr) /\ In mx (latencies tr) /\
     js_le mn mx = true /\
     forall l, In l (latencies tr) -> js_le mn l = true /\ js_le l mx = true).
Proof.
  intro R. destruct (run_stats_ok _ _ _ R) as (Hc & He & Hn & Hs & Hnil & Hcons).
  split; [ lia | ]. split; [ exact Hc | ]. split; [ exact Hs | ].
  intro P.
  destruct (Hcons (run_nonempty_latencies _ _ _ R P))
    as (mn & mx & H1 & H2 & I1 & I2 & B).
  exists mn, mx.
  split; [ exact H1 | split; [ exact H2 | split; [ exact I1 | split; [ exact I2 | ] ] ] ].
  split; [ apply (B mn I1) | exact B ].
Qed.

Lemma statistics_invariant_witness :
  run (args_num 5) [Settled None (ms 10) (ms 10)] = Some after_first /\
  (0 <= errorCount after_first <= resCount after_first)%N /\
  (0 < resCount after_first)%N /\
  exists mn mx,
    minTime after_first = Some mn /\ maxTime after_first = Some mx /\
    js_le mn mx = true.
Proof.
  assert (R : run (args_num 5) [Settled None (ms 10) (ms 10)] = Some after_first)
    by reflexivity.
  destruct (statistics_invariant (args_num 5) [Settled None (ms 10) (ms 10)]
              after_first R) as (H1 & _ & _ & H2).
  split; [ exact R | split; [ exact H1 | split; [ reflexivity | ] ] ].
  destruct (H2 eq_refl) as (mn & mx & Hmn & Hmx & _ & _ & Hle & _).
  exists mn, mx. auto.
Defined.

(** C4, as the claim has it, fails: after three calls of 0.1 ms each the
    maximum is 0.1 and the sum 0.30000000000000004, whose third is
    0.10000000000000002, above the maximum. *)
Lemma average_above_maximum :
  option_map (fun b => (resCount b, maxTime b, avgTime b)) (run (args_num 3) tenths)
  = Some (3%N, Some (S754_finite false 7205759403792794 (-56)),
          S754_finite false 7205759403792795 (-56)) /\
  option_map avg_within_bounds (run (args_num 3) tenths) = Some false /\
  option_map (fun r => (r_max r, r_avg r)) (final_report (args_num 3) tenths)
  = Some (Some (S754_finite false 7205759403792794 (-56)),
          S754_finite false 7205759403792795 (-56)).
Proof.
  repeat split; vm_compute; reflexivity.
Qed.

(** ** The scenario of five requests *)

(** C5: bounded to five requests and given success(10 ms), fail(20 ms),
    success(10 ms), success(10 ms), fail(30 ms), the run ends with the fifth
    completion and reports 5 requests, 2 errors, a minimum of 10, a maximum
    of 30 and an average of 16, whatever the total elapsed time read. *)
Theorem scenario_report (total : hrtime) :
  option_map summary (final_report (args_num 5) (scenario total))
  = Some (5%N, Some 2%N, Some (of_Z 10), Some (of_Z 30), of_Z 16).
Proof.
  vm_compute. reflexivity.
Qed.

(** ** Failed calls *)

Lemma should_stop_record_err (args : bench_args) (b : bench)
    (err1 err2 : option error) (diff : hrtime) :
  should_stop args (record_outcome b err1 diff)
  = should_stop args (record_outcome b err2 diff).
Proof. reflexivity. Qed.

(** C6: a rejected call is recorded as a successful one is, with the error
    count one higher: same completion count, same sum (its latency
    included), same minimum and maximum; and control goes where it goes on
    success: the run ends only if the termination condition holds, and the
    same number of requests has been issued, so the failed call is not
    issued again. Where the termination condition does not hold the run
    goes on: either the handler has issued the next request itself, which
    is the one request now pending and whose completion will be handled, or
    it has left the issue to a [setImmediate] callback, which issues it; in
    both cases exactly one request more than before has then been issued. *)
Theorem failure_recorded_run_continues (args : bench_args) (b : bench)
    (e : error) (diff total : hrtime) :
  let ok := handleResponse args b None diff total in
  let ko := handleResponse args b (Some e) diff total in
  (errorCount ko = errorCount b + 1 /\ errorCount ok = errorCount b)%N /\
  resCount ko = resCount ok /\
  sumTime ko = (sumTime b + duration_ms diff)%js /\
  sumTime ko = sumTime ok /\ minTime ko = minTime ok /\ maxTime ko = maxTime ok /\
  count ko = count ok /\
  finished ko = finished ok /\
  (finished ko = true <-> stop_condition args (record_outcome b (Some e) diff)) /\
  (control ko = InFlight <-> control ok = InFlight) /\
  (control ko = Deferred <-> control ok = Deferred) /\
  (~ stop_condition args (record_outcome b (Some e) diff) ->
   (ko = doRequest (record_outcome b (Some e) diff) /\
    control ko = InFlight /\
    count ko = (count b + 1)%N /\
    forall err' diff' total',
      step args ko (Settled err' diff' total')
      = Some (handleResponse args ko err' diff' total'))
   \/
   (ko = set_control (record_outcome b (Some e) diff) Deferred /\
    control ko = Deferred /\
    count ko = count b /\
    step args ko Immediate = Some (doRequest ko) /\
    control (doRequest ko) = InFlight /\
    count (doRequest ko) = (count b + 1)%N /\
    stats (doRequest ko) = stats ko)).
Proof.
  intros ok ko.
  pose proof (should_stop_spec args (record_outcome b (Some e) diff)) as Sp.
  assert (Rec :
    (errorCount ko = errorCount b + 1 /\ errorCount ok = errorCount b)%N /\
    resCount ko = resCount ok /\
    sumTime ko = (sumTime b + duration_ms diff)%js /\
    sumTime ko = sumTime ok /\ minTime ko = minTime ok /\ maxTime ko = maxTime ok /\
    count ko = count ok /\
    finished ko = finished ok /\
    (finished ko = true <-> stop_condition args (record_outcome b (Some e) diff)) /\
    (control ko = InFlight <-> control ok = InFlight) /\
    (control ko = Deferred <-> control ok = Deferred)).
  { unfold ok, ko, handleResponse.
    rewrite (should_stop_record_err args b None (Some e) diff).
    change (count (record_outcome b None diff)) with (count b).
    change (count (record_outcome b (Some e) diff)) with (count b).
    destruct (should_stop args (record_outcome b (Some e) diff));
      [ | destruct (fast_cycle (count b)) ]; simpl;
      repeat match goal with |- _ /\ _ => split end;
      try reflexivity; try exact Sp; split; intro H; try exact H; discriminate. }
  destruct Rec as (R1 & R2 & R3 & R4 & R5 & R6 & R7 & R8 & R9 & R10 & R11).
  repeat match goal with |- _ /\ _ => split; [ assumption | ] end.
  intro Go.
  assert (F : should_stop args (record_outcome b (Some e) diff) = false).
  { destruct (should_stop args (record_outcome b (Some e) diff));
      [ exfalso; apply Go, Sp; reflexivity | reflexivity ]. }
  unfold ko, handleResponse. rewrite F.
  change (count (record_outcome b (Some e) diff)) with (count b).
  destruct (fast_cycle (count b)); [ left | right ].
  - split; [ reflexivity | ]. split; [ reflexivity | ].
    split; [ reflexivity | ]. intros err' diff' total'. reflexivity.
  - repeat match goal with |- _ /\ _ => split end; reflexivity.
Qed.

Lemma failure_recorded_run_continues_witness :
  let ko := handleResponse (args_num 5) after_first failure (ms 20) (ms 30) in
  ~ stop_condition (args_num 5) (record_outcome after_first failure (ms 20)) /\
  errorCount ko = (errorCount after_first + 1)%N /\
  control ko = InFlight /\
  count ko = (count after_first + 1)%N.
Proof.
  intro ko.
  assert (Go : ~ stop_condition (args_num 5)
                 (record_outcome after_first failure (ms 20))).
  { intro H. apply should_stop_spec in H. vm_compute in H. discriminate H. }
  pose proof (failure_recorded_run_continues (args_num 5) after_first {| message := "request failed" |}
                (ms 20) (ms 30)) as T.
  cbv zeta in T.
  destruct T as ((E & _) & _ & _ & _ & _ & _ & _ & _ & _ & _ & _ & Next).
  split; [ exact Go | ]. split; [ exact E | ].
  destruct (Next Go) as [(_ & C & K & _) | (_ & C & _)].
  - split; [ exact C | exact K ].
  - vm_compute in C. discriminate C.
Defined.

(** ** The default duration *)

(** C7: with neither [--num] nor [--time] given, [time] is 5 and the timer
    is armed with 5000 ms; it is this timer that ends the run. Its callback
    can run in the start state and as long as it has not run; it raises the
    flag and touches nothing else of the control; a completion ends the run
    exactly when the flag is up; so in every run the report is printed only
    after the timer callback has run, and once it has run the completion of
    the pending request prints it. *)
Theorem default_duration (args : bench_args) :
  num args = None ->
  time args = None ->
  bench_time args = Some (of_Z 5) /\
  timer_delay args = of_Z 5000 /\
  timer (bench_action args) = Some (of_Z 5000) /\
  (forall b, should_stop args b = timeout b) /\
  step args (bench_action args) TimerFired
  = Some (fire_timer (bench_action args)) /\
  (forall b, timer b <> None ->
             step args b TimerFired = Some (fire_timer b) /\
             timeout (fire_timer b) = true /\
             control (fire_timer b) = control b) /\
  (forall b err diff total,
      finished (handleResponse args b err diff total) = timeout b) /\
  (forall tr b,
      run args tr = Some b ->
      (timeout b = true <-> In TimerFired tr) /\
      (finished b = true -> In TimerFired tr) /\
      (forall err diff total,
          finished (handleResponse args b err diff total) = true
          <-> In TimerFired tr) /\
      (~ In TimerFired tr ->
       step args b TimerFired = Some (fire_timer b) /\
       timer b = Some (of_Z 5000))).
Proof.
  intros Hn Ht.
  assert (D : timer_delay args = of_Z 5000)
    by (apply timer_delay_default; assumption).
  assert (St : forall b, should_stop args b = timeout b)
    by (intro b; apply should_stop_unbounded, Hn).
  assert (Fh : forall b err diff total,
             finished (handleResponse args b err diff total) = timeout b).
  { intros b err diff total. rewrite finished_handleResponse, St. reflexivity. }
  assert (Th : forall b err diff total,
             timeout (handleResponse args b err diff total) = timeout b /\
             timer (handleResponse args b err diff total) = timer b).
  { intros b err diff total. unfold handleResponse.
    destruct (should_stop args _); [ split; reflexivity | ].
    destruct (fast_cycle _); split; reflexivity. }
  split; [ unfold bench_time, iterate; rewrite Hn, Ht; reflexivity | ].
  split; [ exact D | ].
  assert (T0 : timer (bench_action args) = Some (of_Z 5000))
    by (simpl; rewrite D; reflexivity).
  split; [ exact T0 | ].
  split; [ exact St | ].
  split; [ unfold step; rewrite T0; reflexivity | ].
  split.
  { intros b Hb. simpl. destruct (timer b); [ auto | contradiction ]. }
  split; [ exact Fh | ].
  assert (Inv : forall tr b,
             run args tr = Some b ->
             (timeout b = true <-> In TimerFired tr) /\
             (finished b = true -> timeout b = true) /\
             (timeout b = false -> timer b = Some (of_Z 5000))).
  { apply (run_invariant args
             (fun tr b =>
                (timeout b = true <-> In TimerFired tr) /\
                (finished b = true -> timeout b = true) /\
                (timeout b = false -> timer b = Some (of_Z 5000)))).
    - intros pre b0 ev b' (I1 & I2 & I3) S.
      destruct (step_cases _ _ _ _ S)
        as [(err & diff & total & -> & C & ->)|[(-> & C & ->)|(-> & T & ->)]].
      + destruct (Th b0 err diff total) as [E1 E2]. rewrite Fh, E1, E2.
        split; [ | split; [ auto | exact I3 ] ].
        rewrite I1. rewrite in_app_iff. simpl.
        split; [ auto | intros [H|[H|[]]]; [ exact H | discriminate H ] ].
      + simpl. split; [ | split; [ discriminate | exact I3 ] ].
        rewrite I1. rewrite in_app_iff. simpl.
        split; [ auto | intros [H|[H|[]]]; [ exact H | discriminate H ] ].
      + simpl. split; [ | split; [ reflexivity | discriminate ] ].
        rewrite in_app_iff. simpl. split; auto.
    - split; [ split; [ discriminate | contradiction ] | ].
      split; [ discriminate | intros _; exact T0 ]. }
  intros tr b R. destruct (Inv tr b R) as (I1 & I2 & I3).
  split; [ exact I1 | ].
  split; [ intro F; apply I1, I2, F | ].
  split; [ intros err diff total; rewrite Fh; exact I1 | ].
  intro N.
  assert (T : timeout b = false).
  { destruct (timeout b); [ exfalso; apply N, I1; reflexivity | reflexivity ]. }
  split; [ unfold step; rewrite (I3 T); reflexivity | exact (I3 T) ].
Qed.

Lemma default_duration_witness :
  num args_default = None /\ time args_default = None /\
  timer (bench_action args_default) = Some (of_Z 5000) /\
  step args_default (bench_action args_default) TimerFired
  = Some (fire_timer (bench_action args_default)) /\
  finished (handleResponse args_default (bench_action args_default)
              None (ms 10) (ms 10)) = false /\
  finished (handleResponse args_default (fire_timer (bench_action args_default))
              None (ms 10) (ms 5001)) = true.
Proof.
  destruct (default_duration args_default eq_refl eq_refl)
    as (_ & _ & H1 & _ & H2 & H3 & H4 & _).
  split; [ reflexivity | split; [ reflexivity | ] ].
  split; [ exact H1 | ]. split; [ exact H2 | ].
  split; [ rewrite H4; reflexivity | ].
  rewrite H4. apply (H3 (bench_action args_default)). rewrite H1. discriminate.
Defined.

(** ** Replaying the same outcomes *)

(** C8: two runs under the same arguments that handled the same sequence of
    outcomes end with the same request count, error count, minimum, maximum,
    sum and average, wherever the timer fired and whatever total elapsed
    time each run read. *)
Theorem replay_same_report (args : bench_args) (tr1 tr2 : list event)
    (b1 b2 : bench) (r1 r2 : report) :
  run args tr1 = Some b1 -> control b1 = Finished r1 ->
  run args tr2 = Some b2 -> control b2 = Finished r2 ->
  completions tr1 = completions tr2 ->
  r_requests r1 = r_requests r2 /\
  r_errors r1 = r_errors r2 /\
  r_min r1 = r_min r2 /\ r_max r1 = r_max r2 /\
  sumTime b1 = sumTime b2 /\ r_avg r1 = r_avg r2.
Proof.
  intros R1 C1 R2 C2 E.
  assert (S : stats b1 = stats b2).
  { rewrite (run_stats _ _ _ R1), (run_stats _ _ _ R2), E. reflexivity. }
  destruct (run_report _ _ _ _ R1 C1) as [d1 ->].
  destruct (run_report _ _ _ _ R2 C2) as [d2 ->].
  unfold stats in S. inversion S as [[S1 S2 S3 S4 S5]].
  simpl. rewrite S1, S2, S3, S4, S5. repeat split; reflexivity.
Qed.

Lemma replay_same_report_witness :
  run (args_num 2) two_calls = Some two_calls_end /\
  control two_calls_end = Finished two_calls_report /\
  run (args_num 2) two_calls_timer = Some two_calls_timer_end /\
  control two_calls_timer_end = Finished two_calls_timer_report /\
  completions two_calls = completions two_calls_timer /\
  two_calls_report <> two_calls_timer_report /\
  r_requests two_calls_report = r_requests two_calls_timer_report /\
  r_errors two_calls_report = r_errors two_calls_timer_report /\
  r_min two_calls_report = r_min two_calls_timer_report /\
  r_max two_calls_report = r_max two_calls_timer_report /\
  sumTime two_calls_end = sumTime two_calls_timer_end /\
  r_avg two_calls_report = r_avg two_calls_timer_report.
Proof.
  assert (R1 : run (args_num 2) two_calls = Some two_calls_end)
    by (vm_compute; reflexivity).
  assert (C1 : control two_calls_end = Finished two_calls_report)
    by (vm_compute; reflexivity).
  assert (R2 : run (args_num 2) two_calls_timer = Some two_calls_timer_end)
    by (vm_compute; reflexivity).
  assert (C2 : control two_calls_timer_end = Finished two_calls_timer_report)
    by (vm_compute; reflexivity).
  split; [ exact R1 | split; [ exact C1 | split; [ exact R2 | split; [ exact C2 | ] ] ] ].
  split; [ reflexivity | ].
  split; [ vm_compute; discriminate | ].
  exact (replay_same_report (args_num 2) two_calls two_calls_timer
           two_calls_end two_calls_timer_end two_calls_report two_calls_timer_report
           R1 C1 R2 C2 eq_refl).
Defined.

(** ** The report is printed after a completion *)



(** ** A request bound still arms the timer *)

(** C10: with [--num] given (and not falsy) and [--time] absent, the timer
    is armed with 60000 ms; its callback raises the flag, and the next
    completion then ends the run, whatever the number of completions. *)
Theorem count_bound_timer (args : bench_args) (n : Z) :
  num args = Some n -> n <> 0 ->
  time args = None ->
  timer_delay args = of_Z 60000 /\
  timer (bench_action args) = Some (of_Z 60000) /\
  (forall b, timer b <> None ->
             step args b TimerFired = Some (fire_timer b) /\
             timeout (fire_timer b) = true /\
             control (fire_timer b) = control b) /\
  (forall b err diff total,
      timeout b = true ->
      finished (handleResponse args b err diff total) = true).
Proof.
  intros Hn Hz Ht.
  assert (D : timer_delay args = of_Z 60000).
  { unfold timer_delay, bench_time, iterate. rewrite Hn, Ht. simpl.
    unfold truthyZ. apply Z.eqb_neq in Hz. rewrite Hz. reflexivity. }
  split; [ exact D | ].
  split; [ simpl; rewrite D; reflexivity | ].
  split.
  - intros b Hb. simpl. destruct (timer b); [ auto | contradiction ].
  - intros b err diff total Hb. rewrite finished_handleResponse.
    unfold should_stop. simpl. rewrite Hb. reflexivity.
Qed.

Lemma count_bound_timer_witness :
  num (args_num 5) = Some 5 /\ 5 <> 0 /\ time (args_num 5) = None /\
  timer (bench_action (args_num 5)) = Some (of_Z 60000) /\
  step (args_num 5) (bench_action (args_num 5)) TimerFired = Some timed_out_early /\
  resCount (handleResponse (args_num 5) timed_out_early None (ms 10) (ms 60001)) = 1%N /\
  finished (handleResponse (args_num 5) timed_out_early None (ms 10) (ms 60001)) = true.
Proof.
  destruct (count_bound_timer (args_num 5) 5 eq_refl ltac:(lia) eq_refl)
    as (_ & H1 & H2 & H3).
  split; [ reflexivity | split; [ lia | split; [ reflexivity | ] ] ].
  split; [ exact H1 | ].
  split; [ apply (H2 (bench_action (args_num 5))); discriminate | ].
  split; [ reflexivity | ].
  apply H3. reflexivity.
Defined.

(** * Further properties of the benchmark *)

Lemma run_from_app (args : bench_args) (t1 t2 : list event) :
  forall b,
    run_from args b (t1 ++ t2)
    = match run_from args b t1 with
      | Some b1 => run_from args b1 t2
      | None => None
      end.
Proof.
  induction t1 as [|ev t1 IH]; intro b; simpl; [ reflexivity | ].
  destruct (step args b ev); [ apply IH | reflexivity ].
Qed.

(** Requests issued against requests completed, by control point. *)
Lemma run_count (args : bench_args) (tr : list event) (b : bench) :
  run args tr = Some b ->
  match control b with
  | Idle => False
  | InFlight => count b = (resCount b + 1)%N
  | Deferred | Finished _ => count b = resCount b
  end.
Proof.
  apply (run_invariant args
           (fun _ b => match control b with
                       | Idle => False
                       | InFlight => count b = (resCount b + 1)%N
                       | Deferred | Finished _ => count b = resCount b
                       end)); [ | reflexivity ].
  intros pre b0 ev b' H S.
  destruct (step_cases _ _ _ _ S)
    as [(err & diff & total & -> & C & ->)|[(-> & C & ->)|(-> & _ & ->)]].
  - rewrite C in H. unfold handleResponse.
    destruct (should_stop args _); [ simpl; lia | ].
    destruct (fast_cycle _); simpl; lia.
  - rewrite C in H. simpl. lia.
  - exact H.
Qed.

(** X1: in every state of a run the requests issued are the completed ones
    and, while a call is pending, one more: there is never more than one
    call in flight, and none while a [setImmediate] callback is pending or
    after the report was printed. *)
Theorem single_outstanding_request (args : bench_args) (tr : list event) (b : bench) :
  run args tr = Some b ->
  (count b - resCount b <= 1)%N /\
  (resCount b <= count b)%N /\
  (control b = InFlight <-> (count b - resCount b = 1)%N).
Proof.
  intro R. pose proof (run_count _ _ _ R) as H.
  destruct (control b) eqn:C; try contradiction;
    (split; [ lia | split; [ lia | ] ]);
    split; intro E; try discriminate; try reflexivity; lia.
Qed.

Lemma single_outstanding_request_witness :
  run (args_num 5) [Settled None (ms 10) (ms 10)] = Some after_first /\
  (count after_first - resCount after_first <= 1)%N.
Proof.
  assert (R : run (args_num 5) [Settled None (ms 10) (ms 10)] = Some after_first)
    by reflexivity.
  split; [ exact R | ].
  apply (single_outstanding_request (args_num 5) _ after_first R).
Defined.

(** The bound of a run with [--num n], [n] at least 1: while the run goes
    on fewer than [n] calls have completed. *)
Lemma run_below_bound (args : bench_args) (n : Z) (tr : list event) (b : bench) :
  num args = Some n -> 1 <= n ->
  run args tr = Some b ->
  if finished b then Z.of_N (resCount b) <= n /\ (timeout b = false -> Z.of_N (resCount b) = n)
  else Z.of_N (resCount b) < n.
Proof.
  intros Hn H1.
  apply (run_invariant args
           (fun _ b => if finished b
                       then Z.of_N (resCount b) <= n /\
                            (timeout b = false -> Z.of_N (resCount b) = n)
                       else Z.of_N (resCount b) < n)); [ | simpl; lia ].
  intros pre b0 ev b' H S.
  destruct (step_cases _ _ _ _ S)
    as [(err & diff & total & -> & C & ->)|[(-> & C & ->)|(-> & _ & ->)]].
  - unfold finished in H. rewrite C in H.
    rewrite finished_handleResponse.
    pose proof (stats_handleResponse args b0 err diff total) as E.
    unfold stats in E. inversion E as [[E1 E2 E3 E4 E5]]. rewrite E1. clear E E1 E2 E3 E4 E5.
    assert (T : timeout (handleResponse args b0 err diff total) = timeout b0).
    { unfold handleResponse. destruct (should_stop args _); [ reflexivity | ].
      destruct (fast_cycle _); reflexivity. }
    rewrite T.
    unfold should_stop, iterate, truthyZ. rewrite Hn. simpl.
    destruct (timeout b0); simpl.
    + split; [ lia | discriminate ].
    + replace (n =? 0) with false by (symmetry; apply Z.eqb_neq; lia). simpl.
      destruct (n <=? Z.of_N (resCount b0 + 1)) eqn:L.
      * apply Z.leb_le in L. split; [ lia | intros _; lia ].
      * apply Z.leb_gt in L. lia.
  - unfold finished in *. rewrite C in H. simpl. exact H.
  - unfold finished in *. simpl. destruct (control b0); try exact H.
    destruct H as [H _]. split; [ exact H | discriminate ].
Qed.

(** X2: with [--num n], [n] at least 1, a run never issues more than [n]
    requests, whatever the timer does; it has ended as soon as [n] calls
    have completed, and a run that ended without the timer having fired
    completed exactly [n]. *)
Theorem request_bound_exact (args : bench_args) (n : Z) (tr : list event) (b : bench) :
  num args = Some n -> 1 <= n ->
  run args tr = Some b ->
  Z.of_N (count b) <= n /\
  Z.of_N (resCount b) <= n /\
  (Z.of_N (resCount b) = n -> finished b = true) /\
  (finished b = true -> timeout b = false -> Z.of_N (resCount b) = n).
Proof.
  intros Hn H1 R.
  pose proof (run_below_bound _ _ _ _ Hn H1 R) as B.
  pose proof (run_count _ _ _ R) as C.
  unfold finished in *.
  destruct (control b); try contradiction.
  - split; [ lia | split; [ lia | split; [ lia | discriminate ] ] ].
  - split; [ lia | split; [ lia | split; [ lia | discriminate ] ] ].
  - destruct B as [B1 B2].
    split; [ lia | split; [ lia | split; [ reflexivity | intros _; exact B2 ] ] ].
Qed.

Lemma request_bound_exact_witness :
  num (args_num 2) = Some 2 /\ 1 <= 2 /\
  run (args_num 2) two_calls = Some two_calls_end /\
  Z.of_N (count two_calls_end) <= 2 /\
  Z.of_N (resCount two_calls_end) = 2.
Proof.
  assert (R : run (args_num 2) two_calls = Some two_calls_end)
    by (vm_compute; reflexivity).
  destruct (request_bound_exact (args_num 2) 2 two_calls two_calls_end
              eq_refl ltac:(lia) R) as (H1 & _ & _ & H2).
  split; [ reflexivity | split; [ lia | split; [ exact R | split; [ exact H1 | ] ] ] ].
  apply H2; reflexivity.
Defined.

(** ** Yielding to the event loop *)

Lemma streak_succ (count : N) :
  (count mod 10 <> 0)%N -> S (streak (count + 1)) = streak count.
Proof.
  unfold streak. intro H.
  rewrite <- N.Div0.add_mod_idemp_l.
  pose proof (N.mod_lt count 10 ltac:(discriminate)) as L.
  remember (count mod 10)%N as r eqn:E. clear E.
  assert (C : (r = 1 \/ r = 2 \/ r = 3 \/ r = 4 \/ r = 5 \/ r = 6 \/ r = 7 \/ r = 8 \/ r = 9)%N)
    by lia.
  repeat (destruct C as [->|C]; [ reflexivity | ]). subst r. reflexivity.
Qed.

Lemma streak_bounds (count : N) : (1 <= streak count <= 10)%nat.
Proof.
  unfold streak. destruct (count mod 10 =? 0)%N eqn:E; [ lia | ].
  apply N.eqb_neq in E.
  pose proof (N.mod_lt count 10 ltac:(discriminate)) as L.
  remember (count mod 10)%N as r eqn:Er. clear Er. lia.
Qed.

(** Completions handled in a row from a state. *)
Lemma settled_run_length (args : bench_args) (seg : list event) :
  forall b b',
    forallb is_settled seg = true ->
    run_from args b seg = Some b' ->
    (List.length seg <=
     match control b with InFlight => streak (count b) | _ => 0 end)%nat.
Proof.
  induction seg as [|ev seg IH]; intros b b' F R; [ simpl; lia | ].
  simpl in F. apply andb_true_iff in F. destruct F as [F1 F2].
  destruct ev as [err diff total| |]; try discriminate.
  cbn [run_from step] in R.
  destruct (control b) eqn:C; try discriminate.
  specialize (IH _ _ F2 R).
  pose proof (streak_bounds (count b)) as SB.
  unfold handleResponse in IH.
  change (count (record_outcome b err diff)) with (count b) in IH.
  destruct (should_stop args _); [ simpl in *; lia | ].
  destruct (fast_cycle (count b)) eqn:Fc; simpl in IH; [ | simpl; lia ].
  assert (N0 : (count b mod 10 <> 0)%N).
  { intro E. apply fast_cycle_spec in E. congruence. }
  rewrite <- (streak_succ _ N0). simpl. lia.
Qed.

(** X3: the event loop never handles more than ten completions in a row:
    in every run, between any eleven completions another callback (the
    [setImmediate] one, or the timer) has run. *)
Theorem yields_every_ten_completions (args : bench_args)
    (pre seg post : list event) (b : bench) :
  run args (pre ++ seg ++ post) = Some b ->
  forallb is_settled seg = true ->
  (List.length seg <= 10)%nat.
Proof.
  unfold run. rewrite run_from_app.
  destruct (run_from args (bench_action args) pre) as [b1|]; [ | discriminate ].
  rewrite run_from_app.
  destruct (run_from args b1 seg) as [b2|] eqn:R; [ | discriminate ].
  intros _ F.
  pose proof (settled_run_length _ _ _ _ F R) as L.
  pose proof (streak_bounds (count b1)).
  destruct (control b1); lia.
Qed.

Lemma yields_every_ten_completions_witness :
  run args_default ([] ++ nine_calls ++ [Settled None (ms 1) (ms 9); Immediate])
  = Some (doRequest (handleResponse args_default tenth_pending None (ms 1) (ms 9))) /\
  forallb is_settled nine_calls = true /\
  (List.length nine_calls <= 10)%nat.
Proof.
  assert (R : run args_default ([] ++ nine_calls ++ [Settled None (ms 1) (ms 9); Immediate])
              = Some (doRequest (handleResponse args_default tenth_pending None (ms 1) (ms 9))))
    by (vm_compute; reflexivity).
  split; [ exact R | split; [ reflexivity | ] ].
  exact (yields_every_ten_completions args_default [] nine_calls _ _ R eq_refl).
Defined.

(** ** After the report *)

(** X4: once the report is printed no request is issued and nothing is
    recorded any more: the only callback that can still run is the timer's,
    at most once, and it leaves the counters, the statistics and the report
    as they are. *)
Theorem nothing_after_report (args : bench_args) (b b' : bench) (tr : list event) :
  finished b = true ->
  run_from args b tr = Some b' ->
  (tr = [] \/ tr = [TimerFired]) /\
  count b' = count b /\ stats b' = stats b /\ control b' = control b.
Proof.
  intros F R.
  destruct tr as [|ev tr]; [ injection R as <-; auto | ].
  cbn [run_from] in R.
  destruct (step args b ev) as [b1|] eqn:S; [ | discriminate ].
  unfold finished in F.
  destruct (step_cases _ _ _ _ S)
    as [(err & diff & total & -> & C & ->)|[(-> & C & ->)|(-> & T & ->)]];
    try (rewrite C in F; discriminate).
  destruct tr as [|ev2 tr].
  - injection R as <-. auto.
  - exfalso. cbn [run_from] in R.
    destruct (step args (fire_timer b) ev2) as [b2|] eqn:S2; [ | discriminate ].
    destruct (step_cases _ _ _ _ S2)
      as [(err & diff & total & -> & C & ->)|[(-> & C & ->)|(-> & T2 & ->)]].
    + simpl in C. rewrite C in F. discriminate.
    + simpl in C. rewrite C in F. discriminate.
    + apply T2. reflexivity.
Qed.

Lemma nothing_after_report_witness :
  finished two_calls_end = true /\
  run_from (args_num 2) two_calls_end [TimerFired] = Some (fire_timer two_calls_end) /\
  count (fire_timer two_calls_end) = count two_calls_end /\
  control (fire_timer two_calls_end) = control two_calls_end.
Proof.
  assert (R : run_from (args_num 2) two_calls_end [TimerFired]
              = Some (fire_timer two_calls_end)) by reflexivity.
  destruct (nothing_after_report (args_num 2) two_calls_end _ [TimerFired] eq_refl R)
    as (_ & H1 & _ & H2).
  split; [ reflexivity | split; [ exact R | split; [ exact H1 | exact H2 ] ] ].
Defined.

(** ** The timer *)

Lemma timer_handleResponse (args : bench_args) (b : bench)
    (err : option error) (diff total : hrtime) :
  timeout (handleResponse args b err diff total) = timeout b /\
  timer (handleResponse args b err diff total) = timer b.
Proof.
  unfold handleResponse. destruct (should_stop args _); [ split; reflexivity | ].
  destruct (fast_cycle _); split; reflexivity.
Qed.

(** The timer has not run, or it has run once. *)
Lemma run_timer (args : bench_args) (tr : list event) (b : bench) :
  run args tr = Some b ->
  (filter is_timer tr = [] /\ timeout b = false /\
   timer b = Some (timer_delay args)) \/
  (filter is_timer tr = [TimerFired] /\ timeout b = true /\ timer b = None).
Proof.
  apply (run_invariant args
           (fun tr b =>
              (filter is_timer tr = [] /\ timeout b = false /\
               timer b = Some (timer_delay args)) \/
              (filter is_timer tr = [TimerFired] /\ timeout b = true /\ timer b = None)));
    [ | left; repeat split ].
  intros pre b0 ev b' H S. rewrite filter_app.
  destruct (step_cases _ _ _ _ S)
    as [(err & diff & total & -> & C & ->)|[(-> & C & ->)|(-> & T & ->)]].
  - destruct (timer_handleResponse args b0 err diff total) as [-> ->].
    simpl. rewrite app_nil_r. exact H.
  - simpl. rewrite app_nil_r. exact H.
  - simpl. destruct H as [(H1 & H2 & H3)|(H1 & H2 & H3)].
    + right. rewrite H1. repeat split.
    + contradiction.
Qed.

Lemma filter_timer_in (tr : list event) :
  In TimerFired tr <-> filter is_timer tr <> [].
Proof.
  split.
  - intros H E. assert (I : In TimerFired (filter is_timer tr))
      by (apply filter_In; split; [ exact H | reflexivity ]).
    rewrite E in I. contradiction.
  - intro H. destruct (filter is_timer tr) as [|ev l] eqn:E; [ contradiction | ].
    assert (I : In ev (filter is_timer tr)) by (rewrite E; left; reflexivity).
    apply filter_In in I. destruct I as [I T].
    destruct ev; try discriminate. exact I.
Qed.

(** X5: the timer callback runs at most once in a run; the flag is up
    exactly when it has run, and until then the timer stays pending with
    the delay it was armed with. *)
Theorem timer_fires_once (args : bench_args) (tr : list event) (b : bench) :
  run args tr = Some b ->
  (List.length (filter is_timer tr) <= 1)%nat /\
  (timeout b = true <-> In TimerFired tr) /\
  (timeout b = false -> timer b = Some (timer_delay args)) /\
  (timeout b = true -> timer b = None).
Proof.
  intro R. rewrite filter_timer_in.
  destruct (run_timer _ _ _ R) as [(H1 & H2 & H3)|(H1 & H2 & H3)];
    rewrite H1, H2, H3; simpl.
  - split; [ lia | ]. split; [ | split; [ reflexivity | discriminate ] ].
    split; [ discriminate | intro H; contradiction ].
  - split; [ lia | ]. split; [ | split; [ discriminate | reflexivity ] ].
    split; [ intros _; discriminate | reflexivity ].
Qed.

Lemma timer_fires_once_witness :
  run (args_num 2) two_calls_timer = Some two_calls_timer_end /\
  (List.length (filter is_timer two_calls_timer) <= 1)%nat /\
  timer two_calls_timer_end = None.
Proof.
  assert (R : run (args_num 2) two_calls_timer = Some two_calls_timer_end)
    by (vm_compute; reflexivity).
  destruct (timer_fires_once (args_num 2) two_calls_timer two_calls_timer_end R)
    as (H1 & _ & _ & H2).
  split; [ exact R | split; [ exact H1 | ] ].
  apply H2. reflexivity.
Defined.

(** X9: a run with no request bound ([--num] absent or falsy) never ends
    before its timer has fired: if the report was printed, the timer
    callback has run, and as long as it has not, every completion is
    followed by another request. *)
Theorem unbounded_run_waits_for_timer (args : bench_args) (tr : list event) (b : bench) :
  truthy_opt truthyZ (num args) = false ->
  run args tr = Some b ->
  (finished b = true -> In TimerFired tr) /\
  (~ In TimerFired tr -> control b = InFlight \/ control b = Deferred).
Proof.
  intros Hn R.
  assert (St : forall b0, should_stop args b0 = timeout b0).
  { intro b0. unfold should_stop, iterate. destruct (num args) as [n|]; simpl in *.
    - rewrite Hn. apply orb_false_r.
    - apply orb_false_r. }
  assert (F : finished b = true -> timeout b = true).
  { revert tr b R.
    apply (run_invariant args (fun _ b => finished b = true -> timeout b = true));
      [ | discriminate ].
    intros pre b0 ev b' H S.
    destruct (step_cases _ _ _ _ S)
      as [(err & diff & total & -> & C & ->)|[(-> & C & ->)|(-> & T & ->)]].
    - rewrite finished_handleResponse, St.
      destruct (timer_handleResponse args b0 err diff total) as [-> _].
      intro T. exact T.
    - discriminate.
    - reflexivity. }
  pose proof (run_count _ _ _ R) as C.
  destruct (run_timer _ _ _ R) as [(H1 & H2 & H3)|(H1 & H2 & H3)].
  - split.
    + intro Fb. rewrite (F Fb) in H2. discriminate.
    + intros _. unfold finished in F.
      destruct (control b); try contradiction; auto.
      specialize (F eq_refl). congruence.
  - assert (I : In TimerFired tr).
    { apply filter_timer_in. rewrite H1. discriminate. }
    split; [ intros _; exact I | intro N; contradiction ].
Qed.

Lemma unbounded_run_waits_for_timer_witness :
  truthy_opt truthyZ (num args_default) = false /\
  run args_default nine_calls = Some tenth_pending /\
  (control tenth_pending = InFlight \/ control tenth_pending = Deferred).
Proof.
  assert (R : run args_default nine_calls = Some tenth_pending)
    by (vm_compute; reflexivity).
  destruct (unbounded_run_waits_for_timer args_default nine_calls tenth_pending
              eq_refl R) as (_ & H).
  split; [ reflexivity | split; [ exact R | ] ].
  apply H. intro I. apply filter_timer_in in I. apply I. reflexivity.
Defined.

(** ** Errors and signs *)

Lemma aggregate_errorCount (cs : list (option error * hrtime)) :
  forall b,
    errorCount (aggregate b cs)
    = (errorCount b + N.of_nat (List.length (filter failed cs)))%N.
Proof.
  induction cs as [|[err diff] cs IH]; intro b; [ simpl; lia | ].
  change (aggregate b ((err, diff) :: cs))
    with (aggregate (record_outcome b err diff) cs).
  rewrite IH. unfold failed. simpl.
  destruct err; simpl; lia.
Qed.

Lemma filter_length_all {A : Type} (f : A -> bool) (l : list A) :
  List.length (filter f l) = List.length l <-> forallb f l = true.
Proof.
  induction l as [|x l IH]; simpl; [ tauto | ].
  pose proof (filter_length_le f l) as L.
  destruct (f x); simpl; [ rewrite <- IH; lia | ].
  split; [ lia | discriminate ].
Qed.

Lemma filter_length_none {A : Type} (f : A -> bool) (l : list A) :
  List.length (filter f l) = 0%nat <-> forallb (fun x => negb (f x)) l = true.
Proof.
  induction l as [|x l IH]; simpl; [ tauto | ].
  destruct (f x); simpl; [ split; [ lia | discriminate ] | exact IH ].
Qed.

(** X6: the error count is the number of rejected calls among the outcomes
    handled: it equals the completion count exactly when every call failed,
    and the report shows no error part ("0 error") exactly when none did. *)
Theorem error_count_is_failures (args : bench_args) (tr : list event) (b : bench) :
  run args tr = Some b ->
  errorCount b = N.of_nat (List.length (filter failed (completions tr))) /\
  (errorCount b = resCount b <-> forallb failed (completions tr) = true) /\
  (forall r, control b = Finished r ->
             (r_errors r = None <->
              forallb (fun c => negb (failed c)) (completions tr) = true)).
Proof.
  intro R.
  pose proof (run_stats _ _ _ R) as S. unfold stats in S.
  inversion S as [[S1 S2 S3 S4 S5]]. clear S S1 S3 S4 S5.
  rewrite aggregate_errorCount in S2. simpl in S2.
  destruct (run_stats_ok _ _ _ R) as (Hc & _).
  unfold latencies in Hc. rewrite length_map in Hc.
  split; [ exact S2 | split ].
  - rewrite <- filter_length_all. rewrite S2, Hc. lia.
  - intros r C. destruct (run_report _ _ _ _ R C) as [d ->]. simpl.
    rewrite <- filter_length_none.
    destruct (0 <? errorCount b)%N eqn:P.
    + apply N.ltb_lt in P. split; [ discriminate | lia ].
    + apply N.ltb_ge in P. split; [ lia | reflexivity ].
Qed.

Lemma error_count_is_failures_witness :
  run (args_num 2) two_calls = Some two_calls_end /\
  errorCount two_calls_end = 1%N.
Proof.
  assert (R : run (args_num 2) two_calls = Some two_calls_end)
    by (vm_compute; reflexivity).
  split; [ exact R | ].
  destruct (error_count_is_failures (args_num 2) two_calls two_calls_end R) as (H & _).
  rewrite H. reflexivity.
Defined.

Lemma fold_js_add_nonneg (ls : list number) :
  forall x, nonneg x = true ->
            Forall (fun l => nonneg l = true) ls ->
            nonneg (fold_left js_add ls x) = true.
Proof.
  induction ls as [|l ls IH]; intros x Hx H; simpl; [ exact Hx | ].
  inversion H as [|? ? Hl Hls]. subst.
  apply IH; [ apply js_add_nonneg; assumption | exact Hls ].
Qed.

Lemma latencies_nonneg (tr : list event) :
  Forall (fun l => nonneg l = true) (latencies tr).
Proof.
  unfold latencies. apply Forall_forall. intros l H.
  apply in_map_iff in H. destruct H as (c & <- & _). apply duration_ms_nonneg.
Qed.

(** X7: no statistic of a run is ever negative or [NaN]: in every state the
    sum of the latencies, the minimum and the maximum are non-negative
    numbers. *)
Theorem statistics_never_negative (args : bench_args) (tr : list event) (b : bench) :
  run args tr = Some b ->
  nonneg (sumTime b) = true /\
  (forall m, minTime b = Some m -> nonneg m = true) /\
  (forall m, maxTime b = Some m -> nonneg m = true).
Proof.
  intro R. destruct (run_stats_ok _ _ _ R) as (_ & _ & _ & Hs & Hnil & Hcons).
  pose proof (latencies_nonneg tr) as Hn. 
  split; [ rewrite Hs; apply fold_js_add_nonneg; [ reflexivity | exact Hn ] | ].
  rewrite Forall_forall in Hn.
  destruct (latencies tr) as [|l0 ls] eqn:L.
  - destruct (Hnil eq_refl) as [H1 H2]. split; intros m Hm; congruence.
  - destruct Hcons as (mn & mx & H1 & H2 & I1 & I2 & _); [ discriminate | ].
    split; intros m Hm;
      [ assert (m = mn) by congruence | assert (m = mx) by congruence ];
      subst; auto.
Qed.

Lemma statistics_never_negative_witness :
  run (args_num 5) [Settled None (ms 10) (ms 10)] = Some after_first /\
  nonneg (sumTime after_first) = true.
Proof.
  assert (R : run (args_num 5) [Settled None (ms 10) (ms 10)] = Some after_first)
    by reflexivity.
  split; [ exact R | ].
  destruct (statistics_never_negative (args_num 5) _ after_first R) as (H & _).
  exact H.
Defined.

(** ** A bounded run terminates *)

Lemma bounded_run_progress (args : bench_args) (n : Z)
    (outs : list (option error * hrtime)) :
  num args = Some n ->
  forall b,
    outs <> [] ->
    control b = InFlight \/ control b = Deferred ->
    timeout b = false ->
    Z.of_N (resCount b) + Z.of_nat (List.length outs) = n ->
    exists tr b',
      run_from args b tr = Some b' /\ finished b' = true /\
      completions tr = outs /\ filter is_timer tr = [] /\
      Z.of_N (resCount b') = n.
Proof.
  intro Hn. induction outs as [|[err diff] outs IH]; intros b Ne C T L;
    [ contradiction | ].
  assert (InF : forall b0, control b0 = InFlight -> timeout b0 = false ->
                Z.of_N (resCount b0) + Z.of_nat (List.length ((err, diff) :: outs)) = n ->
                exists tr b',
                  run_from args b0 tr = Some b' /\ finished b' = true /\
                  completions tr = (err, diff) :: outs /\ filter is_timer tr = [] /\
                  Z.of_N (resCount b') = n).
  { intros b0 C0 T0 L0.
    set (b1 := handleResponse args b0 err diff diff).
    assert (S1 : step args b0 (Settled err diff diff) = Some b1)
      by (simpl; rewrite C0; reflexivity).
    assert (R1 : Z.of_N (resCount b1) = Z.of_N (resCount b0) + 1).
    { pose proof (stats_handleResponse args b0 err diff diff) as E.
      unfold stats in E. inversion E as [[E1 E2 E3 E4 E5]].
      unfold b1. rewrite E1. simpl. lia. }
    assert (F1 : finished b1 = should_stop args (record_outcome b0 err diff))
      by apply finished_handleResponse.
    assert (St : should_stop args (record_outcome b0 err diff)
                 = (n <=? Z.of_N (resCount b0) + 1)).
    { unfold should_stop, iterate, truthyZ. rewrite Hn. simpl. rewrite T0. simpl.
      replace (n =? 0) with false
        by (symmetry; apply Z.eqb_neq; simpl in L0; lia).
      simpl. f_equal. lia. }
    destruct outs as [|o outs'].
    - exists [Settled err diff diff], b1. cbn [run_from]. rewrite S1.
      simpl in L0.
      repeat split; [ | lia ].
      rewrite F1, St. apply Z.leb_le. lia.
    - assert (Fin : finished b1 = false).
      { rewrite F1, St. apply Z.leb_gt. simpl List.length in L0. lia. }
      destruct (IH b1) as (tr & b' & R & F & Cs & Tm & Rc).
      + discriminate.
      + unfold b1, handleResponse in *.
        destruct (should_stop args _); [ discriminate | ].
        destruct (fast_cycle _); simpl; auto.
      + unfold b1, handleResponse.
        destruct (should_stop args _); [ exact T0 | ].
        destruct (fast_cycle _); exact T0.
      + simpl List.length in *. lia.
      + exists (Settled err diff diff :: tr), b'. cbn [run_from]. rewrite S1.
        split; [ exact R | split; [ exact F | split; [ | split; [ exact Tm | exact Rc ] ] ] ].
        change (completions (Settled err diff diff :: tr))
          with ((err, diff) :: completions tr).
        rewrite Cs. reflexivity. }
  destruct C as [C|C]; [ apply InF; assumption | ].
  destruct (InF (doRequest b)) as (tr & b' & R & F & Cs & Tm & Rc);
    [ reflexivity | exact T | exact L | ].
  exists (Immediate :: tr), b'. cbn [run_from]. simpl step. rewrite C.
  split; [ exact R | split; [ exact F | split; [ exact Cs | split; [ exact Tm | exact Rc ] ] ] ].
Qed.

(** X8: a run with [--num n], [n] at least 1, handed any [n] outcomes ends:
    there is a run that handles exactly these outcomes in order, without the
    timer firing, and ends with a report of [n] requests. *)
Theorem bounded_run_terminates (args : bench_args) (n : Z)
    (outs : list (option error * hrtime)) :
  num args = Some n -> 1 <= n ->
  Z.of_nat (List.length outs) = n ->
  exists tr b r,
    run args tr = Some b /\ control b = Finished r /\
    completions tr = outs /\ filter is_timer tr = [] /\
    Z.of_N (r_requests r) = n.
Proof.
  intros Hn H1 L.
  destruct (bounded_run_progress args n outs Hn (bench_action args))
    as (tr & b & R & F & Cs & Tm & Rc).
  - intro E. subst outs. simpl in L. lia.
  - left. reflexivity.
  - reflexivity.
  - simpl. exact L.
  - unfold finished in F. destruct (control b) as [ | | |r] eqn:C; try discriminate.
    exists tr, b, r. repeat split; auto.
    destruct (run_report _ _ _ _ R C) as [d ->]. exact Rc.
Qed.

Lemma bounded_run_terminates_witness :
  num (args_num 2) = Some 2 /\ 1 <= 2 /\
  Z.of_nat (List.length (completions two_calls)) = 2 /\
  exists tr b r,
    run (args_num 2) tr = Some b /\ control b = Finished r /\
    completions tr = completions two_calls /\ filter is_timer tr = [] /\
    Z.of_N (r_requests r) = 2.
Proof.
  split; [ reflexivity | split; [ lia | split; [ reflexivity | ] ] ].
  apply (bounded_run_terminates (args_num 2) 2 (completions two_calls));
    [ reflexivity | lia | reflexivity ].
Defined.

(** * [convertArgs] *)

(** Induction on values, through the properties of objects. *)
Lemma jsval_induction (P : jsval -> Prop) :
  P JUndefined -> P JNull ->
  (forall b, P (JBool b)) -> (forall x, P (JNum x)) -> (forall s, P (JStr s)) ->
  (forall items, P (JArr items)) ->
  (forall props, Forall (fun kv => P (snd kv)) props -> P (JObj props)) ->
  forall v, P v.
Proof.
  intros Hu Hn Hb Hx Hs Ha Ho.
  refine (fix IH (v : jsval) : P v :=
            match v with
            | JUndefined => Hu
            | JNull => Hn
            | JBool b => Hb b
            | JNum x => Hx x
            | JStr s => Hs s
            | JArr items => Ha items
            | JObj props =>
                Ho props
                   ((fix IHl (l : list (string * jsval)) :
                       Forall (fun kv => P (snd kv)) l :=
                       match l with
                       | [] => Forall_nil _
                       | kv :: l' => Forall_cons kv (IH (snd kv)) (IHl l')
                       end) props)
            end).
Qed.

(** The assignments of [convertArgs], taken together. *)
Lemma fold_assign_props (f : jsval -> jsres) (props : list (string * jsval)) :
  forall res,
    snd (fold_left (fun res kv => assign res (fst kv) (f (snd kv))) props res)
    = snd res
      ++ map (fun kv => (fst kv, f (snd kv)))
             (filter (fun kv => negb (is_proto_key (fst kv))) props).
Proof.
  induction props as [|kv props IH]; intro res; simpl.
  - rewrite app_nil_r. reflexivity.
  - rewrite IH. unfold assign.
    destruct (is_proto_key (fst kv)); simpl.
    + destruct (is_object_result (f (snd kv))); reflexivity.
    + rewrite <- app_assoc. reflexivity.
Qed.

Lemma fold_assign_proto (f : jsval -> jsres) (props : list (string * jsval)) :
  forallb (fun kv => negb (is_proto_key (fst kv))) props = true ->
  forall res,
    fst (fold_left (fun res kv => assign res (fst kv) (f (snd kv))) props res)
    = fst res.
Proof.
  induction props as [|kv props IH]; intros H res; [ reflexivity | ].
  simpl in H. apply andb_true_iff in H. destruct H as [K H].
  simpl. rewrite (IH H). unfold assign.
  apply negb_true_iff in K. rewrite K. reflexivity.
Qed.

Lemma filter_all {A : Type} (p : A -> bool) (l : list A) :
  forallb p l = true -> filter p l = l.
Proof.
  induction l as [|x l IH]; [ reflexivity | ].
  simpl. intro H. apply andb_true_iff in H. destruct H as [Hx H].
  rewrite Hx, (IH H). reflexivity.
Qed.

Lemma forallb_weaken {A : Type} (p q : A -> bool) (l : list A) :
  (forall x, p x = true -> q x = true) ->
  forallb p l = true -> forallb q l = true.
Proof.
  intros W H. rewrite forallb_forall in *. auto.
Qed.

(** With no property [__proto__], the conversion of an object is the
    conversion of its properties, one by one. *)
Lemma convertValue_plain_object (props : list (string * jsval)) :
  forallb (fun kv => negb (is_proto_key (fst kv))) props = true ->
  convertValue (JObj props)
  = RObj None (map (fun kv => (fst kv, convertValue (snd kv))) props).
Proof.
  intro H. cbn [convertValue].
  rewrite fold_assign_props, (fold_assign_proto _ _ H), (filter_all _ _ H).
  reflexivity.
Qed.

Lemma rget_app (key : string) (l1 l2 : list (string * jsres)) :
  rget key (l1 ++ l2)
  = match rget key l1 with Some v => Some v | None => rget key l2 end.
Proof.
  induction l1 as [|[k v] l1 IH]; [ reflexivity | ].
  simpl. destruct (k =? key)%string; [ reflexivity | exact IH ].
Qed.

(** X11: [convertArgs] keeps every property other than [__proto__], in
    order, and under its key holds the conversion of the value that was
    there: no other option is dropped, added or renamed. A property
    [__proto__] never becomes a property of the result: its conversion
    becomes the prototype of the result where it is an object or an array,
    and is dropped otherwise; with no such property the prototype stays
    [Object.prototype]. *)
Theorem convertArgs_keys (args : list (string * jsval)) :
  own_props (convertArgs args)
  = map (fun kv => (fst kv, convertValue (snd kv)))
        (filter (fun kv => negb (is_proto_key (fst kv))) args) /\
  map fst (own_props (convertArgs args))
  = filter (fun k => negb (is_proto_key k)) (map fst args) /\
  rget "__proto__" (own_props (convertArgs args)) = None /\
  (forall key,
      is_proto_key key = false ->
      rget key (own_props (convertArgs args))
      = option_map convertValue (get key args)) /\
  (forallb (fun kv => negb (is_proto_key (fst kv))) args = true ->
   prototype (convertArgs args) = None /\
   map fst (own_props (convertArgs args)) = map fst args) /\
  (forall pre value post,
      args = pre ++ ("__proto__"%string, value) :: post ->
      forallb (fun kv => negb (is_proto_key (fst kv))) pre = true ->
      forallb (fun kv => negb (is_proto_key (fst kv))) post = true ->
      prototype (convertArgs args)
      = if is_object_result (convertValue value)
        then Some (convertValue value) else None).
Proof.
  assert (P : own_props (convertArgs args)
              = map (fun kv => (fst kv, convertValue (snd kv)))
                    (filter (fun kv => negb (is_proto_key (fst kv))) args)).
  { unfold convertArgs. cbn [convertValue own_props].
    rewrite fold_assign_props. reflexivity. }
  split; [ exact P | ].
  split.
  { rewrite P, map_map. cbn [fst].
    clear P. induction args as [|[k v] args IH]; [ reflexivity | ].
    simpl. destruct (is_proto_key k); simpl; rewrite IH; reflexivity. }
  split.
  { rewrite P. clear P. induction args as [|[k v] args IH]; [ reflexivity | ].
    simpl. unfold is_proto_key at 1. simpl.
    destruct (k =? "__proto__")%string eqn:K; simpl; [ exact IH | ].
    rewrite K. exact IH. }
  split.
  { intros key Hk. rewrite P. clear P.
    induction args as [|[k v] args IH]; [ reflexivity | ].
    simpl. destruct (is_proto_key k) eqn:K; simpl.
    - unfold is_proto_key in K, Hk. apply String.eqb_eq in K. subst k.
      rewrite String.eqb_sym, Hk. exact IH.
    - destruct (k =? key)%string; [ reflexivity | exact IH ]. }
  split.
  { intro H. split.
    - unfold convertArgs. rewrite (convertValue_plain_object _ H). reflexivity.
    - unfold convertArgs. rewrite (convertValue_plain_object _ H).
      cbn [own_props]. rewrite map_map. reflexivity. }
  intros pre value post -> Hpre Hpost.
  unfold convertArgs. cbn [convertValue prototype].
  rewrite fold_left_app. cbn [fold_left].
  rewrite (fold_assign_proto _ _ Hpost).
  unfold assign at 1. cbn [fst snd]. change (is_proto_key "__proto__") with true.
  cbv iota.
  destruct (is_object_result (convertValue value)); [ reflexivity | ].
  apply (fold_assign_proto _ _ Hpre).
Qed.

Lemma convertArgs_keys_witness :
  map fst (own_props (convertArgs polluted_options)) = ["a"; "user"]%string /\
  rget "a" (own_props (convertArgs polluted_options)) = Some (RBool true) /\
  rget "user" (own_props (convertArgs polluted_options))
  = Some (RObj None [("name"%string, RStr "ann")]) /\
  prototype (convertArgs polluted_options)
  = Some (RObj None [("admin"%string, RBool true)]).
Proof.
  destruct (convertArgs_keys polluted_options) as (_ & K & _ & G & _ & Pr).
  split; [ rewrite K; reflexivity | ].
  split; [ rewrite (G "a"%string eq_refl); reflexivity | ].
  split; [ rewrite (G "user"%string eq_refl); reflexivity | ].
  rewrite (Pr [("a"%string, JStr "true")]
              (JObj [("admin"%string, JStr "true")])
              [("user"%string,
                JObj [("__proto__"%string, JStr "x"); ("name"%string, JStr "ann")])]
              eq_refl eq_refl eq_refl).
  reflexivity.
Defined.

Lemma converted_result_fold (props : list (string * jsval)) :
  Forall (fun kv => converted_result (convertValue (snd kv)) = true) props ->
  forall res,
    converted_result (RObj (fst res) (snd res)) = true ->
    let res' :=
      fold_left (fun res kv => assign res (fst kv) (convertValue (snd kv)))
                props res in
    converted_result (RObj (fst res') (snd res')) = true.
Proof.
  induction 1 as [|kv props Hkv _ IH]; intros res Hres; [ exact Hres | ].
  cbn [fold_left]. apply IH.
  cbn [converted_result] in Hres. apply andb_true_iff in Hres.
  destruct Hres as [Hp Hl].
  unfold assign. destruct (is_proto_key (fst kv)) eqn:K.
  - destruct (is_object_result (convertValue (snd kv))).
    + cbn [converted_result fst snd]. rewrite Hkv, Hl. reflexivity.
    + cbn [converted_result]. rewrite Hp, Hl. reflexivity.
  - cbn [converted_result fst snd]. rewrite Hp, forallb_app, Hl.
    cbn [forallb fst snd]. rewrite K, Hkv. reflexivity.
Qed.

Lemma converted_convertValue (v : jsval) :
  converted_result (convertValue v) = true.
Proof.
  induction v as [ | |b|x|s|items|props IH] using jsval_induction;
    try reflexivity.
  - simpl. destruct (s =? "true")%string eqn:T; [ reflexivity | ].
    destruct (s =? "false")%string eqn:F; [ reflexivity | ].
    simpl. rewrite T, F. reflexivity.
  - cbn [convertValue]. apply (converted_result_fold props IH (None, [])).
    reflexivity.
Qed.

Lemma converted_as_result (v : jsval) :
  converted v = true -> as_result v = Some (convertValue v).
Proof.
  induction v as [ | |b|x|s|items|props IH] using jsval_induction;
    try reflexivity; cbn [converted].
  - discriminate.
  - intro H. apply andb_true_iff in H. destruct H as [T F].
    apply negb_true_iff in T. apply negb_true_iff in F.
    simpl. rewrite T, F. reflexivity.
  - intro H.
    assert (K : forallb (fun kv => negb (is_proto_key (fst kv))) props = true).
    { revert H. apply forallb_weaken. intros kv E.
      apply andb_true_iff in E. apply E. }
    rewrite (convertValue_plain_object _ K). cbn [as_result].
    assert (E : all_props (map (fun kv => (fst kv, as_result (snd kv))) props)
                = Some (map (fun kv => (fst kv, convertValue (snd kv))) props)).
    { clear K. induction IH as [|kv props Hkv _ IHl]; [ reflexivity | ].
      cbn [forallb] in H. apply andb_true_iff in H. destruct H as [Hk H].
      apply andb_true_iff in Hk. destruct Hk as [_ Hk].
      cbn [map all_props fst snd]. rewrite (Hkv Hk), (IHl H). reflexivity. }
    rewrite E. reflexivity.
Qed.

Lemma as_result_converted (v : jsval) :
  forall r, as_result v = Some r -> converted_result r = true ->
            converted v = true.
Proof.
  induction v as [ | |b|x|s|items|props IH] using jsval_induction;
    intros r E C; try reflexivity; cbn [as_result] in E.
  - discriminate.
  - inversion E; subst r. exact C.
  - destruct (all_props (map (fun kv => (fst kv, as_result (snd kv))) props))
      as [rs|] eqn:A; [ | discriminate ].
    simpl in E. inversion E; subst r. clear E.
    cbn [converted_result] in C. rewrite andb_true_l in C.
    cbn [converted]. revert rs A C.
    induction IH as [|kv props Hkv _ IHl]; intros rs A C; [ reflexivity | ].
    cbn [map all_props fst snd] in A.
    destruct (as_result (snd kv)) as [r|] eqn:Er; [ | discriminate ].
    destruct (all_props (map (fun kv => (fst kv, as_result (snd kv))) props))
      as [rest|] eqn:Ar; [ | discriminate ].
    inversion A; subst rs. clear A.
    cbn [forallb fst snd] in C. apply andb_true_iff in C. destruct C as [Ck C].
    apply andb_true_iff in Ck. destruct Ck as [Ck Cr].
    cbn [forallb]. rewrite Ck, (Hkv r eq_refl Cr), (IHl rest eq_refl C).
    reflexivity.
Qed.

Lemma plain_keys_as_result (v : jsval) :
  plain_keys v = true -> exists v', as_result v' = Some (convertValue v).
Proof.
  induction v as [ | |b|x|s|items|props IH] using jsval_induction; intro H.
  - exists JUndefined. reflexivity.
  - exists (JObj []). reflexivity.
  - exists (JBool b). reflexivity.
  - exists (JNum x). reflexivity.
  - simpl. destruct (s =? "true")%string;
      [ exists (JBool true); reflexivity | ].
    destruct (s =? "false")%string;
      [ exists (JBool false); reflexivity | exists (JStr s); reflexivity ].
  - exists (JArr items). reflexivity.
  - cbn [plain_keys] in H.
    assert (K : forallb (fun kv => negb (is_proto_key (fst kv))) props = true).
    { revert H. apply forallb_weaken. intros kv E.
      apply andb_true_iff in E. apply E. }
    rewrite (convertValue_plain_object _ K). clear K.
    assert (E : exists props',
               all_props (map (fun kv => (fst kv, as_result (snd kv))) props')
               = Some (map (fun kv => (fst kv, convertValue (snd kv))) props)).
    { induction IH as [|kv props Hkv _ IHl]; [ exists []; reflexivity | ].
      cbn [forallb] in H. apply andb_true_iff in H. destruct H as [Hk H].
      apply andb_true_iff in Hk. destruct Hk as [_ Hk].
      destruct (Hkv Hk) as [v' Ev]. destruct (IHl H) as [props' Ep].
      exists ((fst kv, v') :: props').
      cbn [map all_props fst snd]. rewrite Ev, Ep. reflexivity. }
    destruct E as [props' E]. exists (JObj props').
    cbn [as_result]. rewrite E. reflexivity.
Qed.

(** X10: converting twice is converting once. Where the result of
    [convertArgs] is a plain object, converting that object gives the same
    result again; and the result is a plain object whenever the options
    hold no property [__proto__], at any depth outside arrays. *)
Theorem convertArgs_idempotent (args : list (string * jsval)) :
  (forall args',
      as_result (JObj args') = Some (convertArgs args) ->
      convertArgs args' = convertArgs args) /\
  (plain_keys (JObj args) = true ->
   exists args',
     as_result (JObj args') = Some (convertArgs args) /\
     convertArgs args' = convertArgs args).
Proof.
  assert (Again : forall args',
             as_result (JObj args') = Some (convertArgs args) ->
             convertArgs args' = convertArgs args).
  { intros args' E.
    pose proof (as_result_converted _ _ E (converted_convertValue (JObj args))) as C.
    apply converted_as_result in C. rewrite E in C.
    unfold convertArgs in *. congruence. }
  split; [ exact Again | ].
  intro H. destruct (plain_keys_as_result _ H) as [v' E].
  destruct v' as [ | |b|x|s|items|args']; try discriminate E.
  exists args'. split; [ exact E | exact (Again args' E) ].
Qed.

Lemma convertArgs_idempotent_witness :
  plain_keys (JObj sample_options) = true /\
  exists args',
    as_result (JObj args') = Some (convertArgs sample_options) /\
    convertArgs args' = convertArgs sample_options /\
    args' <> sample_options.
Proof.
  split; [ reflexivity | ].
  destruct (convertArgs_idempotent sample_options) as [Again _].
  exists [ ("verbose", JBool true);
           ("tags", JArr [JStr "a"; JStr "true"]);
           ("user", JObj [("admin", JBool false); ("name", JStr "ann")]);
           ("limit", JNum (of_Z 5)) ]%string.
  split; [ reflexivity | ].
  split; [ apply Again; reflexivity | discriminate ].
Defined.

(** X12: outside arrays a result of [convertArgs] holds no string "true" or
    "false" and no property [__proto__], at any depth of nested objects and
    in prototypes; and the options that [convertArgs] gives back as they
    are, are exactly those that hold, outside arrays, no [null], no string
    "true" or "false" and no property [__proto__]. *)
Theorem convertArgs_converted (args : list (string * jsval)) :
  converted_result (convertArgs args) = true /\
  (as_result (JObj args) = Some (convertArgs args) <->
   converted (JObj args) = true).
Proof.
  split; [ apply converted_convertValue | ].
  split.
  - intro E. exact (as_result_converted _ _ E (converted_convertValue (JObj args))).
  - apply converted_as_result.
Qed.

(** * The [services] command *)

Lemma indexOf_string_objects (items : list jsval) (s : string) :
  forallb is_object items = true -> indexOf_string items s = -1.
Proof.
  induction items as [|x items IH]; [ reflexivity | ].
  simpl. intro H. apply andb_true_iff in H. destruct H as [Hx H].
  destruct x; try discriminate. simpl. rewrite (IH H). reflexivity.
Qed.

Lemma indexOf_Z_found (items : list Z) (index : Z) :
  (indexOf_Z items index = -1 /\ ~ In index items) \/
  (0 <= indexOf_Z items index /\ In index items).
Proof.
  induction items as [|x items IH]; simpl; [ left; auto | ].
  destruct (Z.eqb_spec x index) as [E|E]; [ right; split; [ lia | auto ] | ].
  destruct IH as [[H N]|[H I]].
  - rewrite H. simpl. left. split; [ reflexivity | ]. intros [F|F]; contradiction.
  - destruct (Z.eqb_spec (indexOf_Z items index) (-1)) as [F|F]; [ lia | ].
    right. split; [ lia | auto ].
Qed.

Lemma last_cons_nonempty {A : Type} (x d : A) (l : list A) :
  l <> [] -> last (x :: l) d = last l d.
Proof. destruct l; [ contradiction | reflexivity ]. Qed.

Lemma block_ends_facts (items : list service_item) :
  forall start,
    Forall (fun h => Z.of_nat start < h
                     <= Z.of_nat (start + List.length items + node_total items))
           (block_ends start items) /\
    StronglySorted Z.lt (block_ends start items) /\
    List.length (block_ends start items) = List.length items /\
    (items <> [] ->
     last (block_ends start items) 0
     = Z.of_nat (start + List.length items + node_total items)).
Proof.
  unfold node_total.
  induction items as [|item items IH]; intro start.
  - simpl. repeat split; try constructor. intro H. contradiction.
  - destruct (IH (start + 1 + List.length (i_nodes item))%nat) as (B & Srt & L & E).
    cbn [block_ends map List.length].
    change (list_sum (List.length (i_nodes item)
                      :: map (fun item => List.length (i_nodes item)) items))
      with (List.length (i_nodes item)
            + list_sum (map (fun item => List.length (i_nodes item)) items))%nat.
    split; [ | split; [ | split ] ].
    + constructor; [ lia | ].
      eapply Forall_impl; [ | exact B ]. simpl. intros h H. lia.
    + constructor; [ exact Srt | ].
      eapply Forall_impl; [ | exact B ]. simpl. intros h H. lia.
    + rewrite L. reflexivity.
    + intros _. destruct items as [|item2 items].
      * simpl. f_equal. lia.
      * rewrite last_cons_nonempty.
        -- rewrite E by discriminate. f_equal. simpl. lia.
        -- intro K. rewrite K in L. discriminate.
Qed.

Section ServicesFacts.

Variable loose_equals : jsval -> jsval -> bool.
Variable localeSort : list service_item -> list service_item.
Hypothesis localeSort_permutation : forall l, Permutation (localeSort l) l.

Lemma item_ok_new (svc : service) : item_ok (new_item svc).
Proof.
  unfold item_ok. simpl. repeat split; [ discriminate | ].
  destruct (s_available svc); reflexivity.
Qed.

Lemma item_ok_add (svc : service) (item : service_item) :
  item_ok item -> item_ok (add_node svc item).
Proof.
  intros (H1 & H2 & H3). unfold item_ok. simpl.
  split; [ | split ].
  - rewrite forallb_app, H1. reflexivity.
  - destruct (i_nodes item); discriminate.
  - rewrite existsb_app, <- H3. simpl.
    destruct (i_available item), (s_available svc); reflexivity.
Qed.

Lemma add_service_ok (svc : service) (items : list service_item) :
  Forall item_ok items -> Forall item_ok (add_service loose_equals svc items).
Proof.
  induction items as [|o items IH]; intro H; simpl.
  - constructor; [ apply item_ok_new | constructor ].
  - inversion H as [|? ? Ho Hr]. subst.
    destruct (same_service loose_equals svc o).
    + constructor; [ apply item_ok_add, Ho | exact Hr ].
    + constructor; [ exact Ho | apply IH, Hr ].
Qed.

Lemma add_service_total (svc : service) (items : list service_item) :
  node_total (add_service loose_equals svc items) = S (node_total items).
Proof.
  unfold node_total. induction items as [|o items IH]; simpl; [ reflexivity | ].
  destruct (same_service loose_equals svc o); simpl.
  - rewrite length_app. simpl. lia.
  - rewrite IH. lia.
Qed.

(** The item that got the node of [svc]. *)
Lemma add_service_holds (svc : service) (items : list service_item) :
  exists item,
    In item (add_service loose_equals svc items) /\
    i_name item = s_name svc /\ In (node_entry svc) (i_nodes item).
Proof.
  induction items as [|o items IH]; simpl.
  - exists (new_item svc). simpl. auto.
  - destruct (same_service loose_equals svc o) eqn:E.
    + exists (add_node svc o). simpl. split; [ auto | split ].
      * unfold same_service in E. apply andb_true_iff in E.
        destruct E as [E _]. apply String.eqb_eq in E. exact E.
      * apply in_or_app. right. left. reflexivity.
    + destruct IH as (item & I & N & M). exists item. simpl. auto.
Qed.

(** Items only gain nodes. *)
Lemma add_service_keeps (svc : service) (items : list service_item) (item : service_item) :
  In item items ->
  exists item',
    In item' (add_service loose_equals svc items) /\
    i_name item' = i_name item /\ incl (i_nodes item) (i_nodes item').
Proof.
  induction items as [|o items IH]; intro I; [ contradiction | ].
  simpl. destruct (same_service loose_equals svc o).
  - destruct I as [<-|I].
    + exists (add_node svc o). simpl. split; [ auto | split; [ reflexivity | ] ].
      apply incl_appl, incl_refl.
    + exists item. simpl. split; [ auto | split; [ reflexivity | apply incl_refl ] ].
  - destruct I as [<-|I].
    + exists o. simpl. split; [ auto | split; [ reflexivity | apply incl_refl ] ].
    + destruct (IH I) as (item' & I' & N & M). exists item'. simpl. auto.
Qed.

Lemma group_from (services : list service) :
  forall items,
    Forall item_ok items ->
    let items' := fold_left (fun items svc => add_service loose_equals svc items)
                            services items in
    Forall item_ok items' /\
    node_total items' = (node_total items + List.length services)%nat /\
    (forall svc, In svc services ->
                 exists item, In item items' /\ i_name item = s_name svc /\
                              In (node_entry svc) (i_nodes item)) /\
    (forall item, In item items ->
                  exists item', In item' items' /\ i_name item' = i_name item /\
                                incl (i_nodes item) (i_nodes item')).
Proof.
  induction services as [|svc services IH]; intros items H; simpl.
  - split; [ exact H | split; [ lia | split; [ contradiction | ] ] ].
    intros item I. exists item. split; [ exact I | split; [ reflexivity | apply incl_refl ] ].
  - destruct (IH _ (add_service_ok svc items H)) as (H1 & H2 & H3 & H4).
    split; [ exact H1 | split; [ rewrite H2, add_service_total; lia | split ] ].
    + intros svc' [<-|I]; [ | apply H3, I ].
      destruct (add_service_holds svc items) as (item & I & N & M).
      destruct (H4 item I) as (item' & I' & N' & M').
      exists item'. split; [ exact I' | split; [ congruence | apply M', M ] ].
    + intros item I.
      destruct (add_service_keeps svc items item I) as (item1 & I1 & N1 & M1).
      destruct (H4 item1 I1) as (item' & I' & N' & M').
      exists item'. split; [ exact I' | split; [ congruence | ] ].
      intros x Hx. apply M', M1, Hx.
Qed.

(** X13: grouping loses and invents nothing: the items hold as many nodes
    as the registry listed instances, the node of every instance is in an
    item of its service's name, and every item has at least one node and is
    shown available exactly when one of its nodes is. *)
Theorem group_conserves (services : list service) :
  node_total (group loose_equals services) = List.length services /\
  (forall svc, In svc services ->
               exists item, In item (group loose_equals services) /\
                            i_name item = s_name svc /\
                            In (node_entry svc) (i_nodes item)) /\
  (forall item, In item (group loose_equals services) ->
                i_nodes item <> [] /\
                i_available item
                = existsb (fun e => js_truthy (prop "available" e)) (i_nodes item)).
Proof.
  destruct (group_from services [] (Forall_nil _)) as (H1 & H2 & H3 & _).
  split; [ exact H2 | split; [ exact H3 | ] ].
  intros item I. rewrite Forall_forall in H1.
  destruct (H1 item I) as (_ & N & A). auto.
Qed.

(** X14: the [services] table never marks a service as local: the broker's
    node ID is a string and the nodes of an item are objects, so that
    [indexOf] never finds it and the Nodes cell is the bare count of nodes,
    also for a service that does run on the local node. *)
Theorem services_never_local (services : list service) (nodeID : string)
    (item : service_item) :
  In item (localeSort (group loose_equals services)) ->
  indexOf_string (i_nodes item) nodeID = -1 /\
  service_row nodeID item
  = [ Plain (JStr (i_name item));
      Plain (if js_truthy (i_version item) then i_version item else JStr "-");
      state_cell (i_available item);
      Plain (JNum (of_N (i_actionCount item)));
      Plain (JNum (of_N (i_eventCount item)));
      Plain (JStr (decimal (N.of_nat (List.length (i_nodes item))))) ].
Proof.
  intro I.
  apply (Permutation_in _ (localeSort_permutation _)) in I.
  destruct (group_from services [] (Forall_nil _)) as (H & _).
  rewrite Forall_forall in H. destruct (H item I) as (O & _).
  pose proof (indexOf_string_objects _ nodeID O) as E.
  split; [ exact E | ].
  unfold service_row. rewrite E. reflexivity.
Qed.

Lemma push_items (details : bool) (nodeID : string) (items : list service_item) :
  forall data hLines,
    fold_left (push_item loose_equals details nodeID) items (data, hLines)
    = (data ++ flat_map (block loose_equals details nodeID) items,
       hLines ++ (if details then block_ends (List.length data) items else [])).
Proof.
  induction items as [|item items IH]; intros data hLines; simpl.
  - rewrite !app_nil_r. destruct details; rewrite ?app_nil_r; reflexivity.
  - unfold push_item at 2. simpl. destruct details.
    + rewrite IH. f_equal.
      * unfold block. simpl. rewrite <- !app_assoc. reflexivity.
      * rewrite <- app_assoc. simpl. rewrite !length_app, length_map. simpl.
        reflexivity.
    + rewrite IH. f_equal. unfold block. simpl. rewrite <- app_assoc. reflexivity.
Qed.

Lemma node_total_permutation (l1 l2 : list service_item) :
  Permutation l1 l2 -> node_total l1 = node_total l2.
Proof.
  unfold node_total. intro P. induction P; simpl; lia.
Qed.

Lemma blocks_length (details : bool) (nodeID : string) (items : list service_item) :
  List.length (flat_map (block loose_equals details nodeID) items)
  = (List.length items + if details then node_total items else 0)%nat.
Proof.
  unfold node_total. induction items as [|item items IH]; simpl.
  - destruct details; reflexivity.
  - rewrite length_app, IH. destruct details; simpl; rewrite ?length_map; lia.
Qed.

(** X15: the table of [services] is the header followed by one block per
    item in sorted order, the row of the service and, with [--details], a
    row per node; every row has the six cells of the header, and the table
    has one row per item and, with [--details], one more per instance that
    the registry listed. *)
Theorem services_table_rows (details : bool) (nodeID : string)
    (services : list service) :
  let items := localeSort (group loose_equals services) in
  let data := fst (services_table loose_equals localeSort details nodeID services) in
  data = services_header :: flat_map (block loose_equals details nodeID) items /\
  Forall (fun row => List.length row = 6%nat) data /\
  List.length data
  = (1 + List.length (group loose_equals services)
     + if details then List.length services else 0)%nat.
Proof.
  intros items data.
  assert (D : data = services_header :: flat_map (block loose_equals details nodeID) items).
  { unfold data, services_table. fold items. rewrite push_items. reflexivity. }
  split; [ exact D | ]. rewrite D. split.
  - constructor; [ reflexivity | ].
    apply Forall_forall. intros row I. apply in_flat_map in I.
    destruct I as (item & _ & [<-|I]); [ reflexivity | ].
    destruct details; [ | contradiction ].
    apply in_map_iff in I. destruct I as (e & <- & _). reflexivity.
  - simpl. rewrite blocks_length. unfold items.
    rewrite (Permutation_length (localeSort_permutation _)).
    rewrite (node_total_permutation _ _ (localeSort_permutation _)).
    destruct (group_from services [] (Forall_nil _)) as (_ & T & _).
    fold (group loose_equals services) in T. rewrite T.
    destruct details; simpl; lia.
Qed.

(** X16: [table] draws a horizontal line above row [index] exactly at the
    top, below the header, at the bottom and, with [--details], where the
    block of a service ends; these ends come in increasing order, one per
    item, the last one at the bottom of the table, so that no line falls
    inside a block. *)
Theorem services_table_lines (details : bool) (nodeID : string)
    (services : list service) (index : Z) :
  let items := localeSort (group loose_equals services) in
  let data := fst (services_table loose_equals localeSort details nodeID services) in
  let hLines := snd (services_table loose_equals localeSort details nodeID services) in
  let count := Z.of_nat (List.length data) in
  hLines = (if details then block_ends 1 items else []) /\
  (drawHorizontalLine hLines index count = true <->
   index = 0 \/ index = 1 \/ index = count \/ In index hLines) /\
  StronglySorted Z.lt hLines /\
  Forall (fun h => 1 < h <= count) hLines /\
  (details = true -> List.length hLines = List.length items) /\
  (details = true -> items <> [] -> last hLines 0 = count).
Proof.
  intros items data hLines count.
  assert (H : hLines = if details then block_ends 1 items else []).
  { unfold hLines, services_table. fold items. rewrite push_items. reflexivity. }
  assert (C : count = Z.of_nat (1 + List.length items
                                + if details then node_total items else 0)).
  { unfold count, data, services_table. fold items. rewrite push_items. simpl.
    rewrite blocks_length. f_equal. }
  destruct (block_ends_facts items 1) as (B & Srt & L & E).
  split; [ exact H | split ].
  - unfold drawHorizontalLine.
    rewrite !orb_true_iff, !Z.eqb_eq, negb_true_iff, Z.eqb_neq.
    destruct (indexOf_Z_found hLines index) as [[F N]|[F I]]; split; intro K.
    + destruct K as [[[K|K]|K]|K]; auto; contradiction.
    + destruct K as [K|[K|[K|K]]]; auto; contradiction.
    + do 3 right. exact I.
    + right. lia.
  - rewrite H, C. destruct details.
    + split; [ exact Srt | split; [ | split; [ intros _; exact L | ] ] ].
      * eapply Forall_impl; [ | exact B ]. simpl. intros h K. lia.
      * intros _ Ne. rewrite (E Ne). f_equal.
    + split; [ constructor | split; [ constructor | split; discriminate ] ].
Qed.

End ServicesFacts.

Lemma services_never_local_witness :
  (forall l : list service_item, Permutation ((fun l => l) l) l) /\
  In sample_users ((fun l => l) (group same_type_equals sample_services)) /\
  In (node_entry (sample_service "users" "node-1" true)) (i_nodes sample_users) /\
  nth 5 (service_row "node-1" sample_users) (Plain JUndefined) = Plain (JStr "1").
Proof.
  assert (P : forall l : list service_item, Permutation ((fun l => l) l) l)
    by (intro l; apply Permutation_refl).
  assert (I : In sample_users ((fun l => l) (group same_type_equals sample_services)))
    by (right; left; reflexivity).
  destruct (services_never_local same_type_equals (fun l => l) P
              sample_services "node-1" sample_users I) as (_ & R).
  split; [ exact P | split; [ exact I | split; [ left; reflexivity | ] ] ].
  rewrite R. reflexivity.
Defined.

Lemma services_table_rows_witness :
  (forall l : list service_item, Permutation ((fun l => l) l) l) /\
  List.length (fst (services_table same_type_equals (fun l => l) true "node-1"
                                   sample_services)) = 6%nat.
Proof.
  assert (P : forall l : list service_item, Permutation ((fun l => l) l) l)
    by (intro l; apply Permutation_refl).
  destruct (services_table_rows same_type_equals (fun l => l) P true "node-1"
              sample_services) as (_ & _ & H).
  split; [ exact P | ]. rewrite H. reflexivity.
Defined.

Lemma services_table_lines_witness :
  snd (services_table same_type_equals (fun l => l) true "node-1" sample_services)
  = [4; 6] /\
  drawHorizontalLine
    (snd (services_table same_type_equals (fun l => l) true "node-1" sample_services))
    4 6 = true /\
  drawHorizontalLine
    (snd (services_table same_type_equals (fun l => l) true "node-1" sample_services))
    3 6 = false.
Proof.
  destruct (services_table_lines same_type_equals (fun l => l) true "node-1"
              sample_services 4) as (H & D & _).
  split; [ rewrite H; reflexivity | split; [ | reflexivity ] ].
  apply D. do 3 right. rewrite H. left. reflexivity.
Defined.
